(** * The subtitles plugin of CodeceptJS ([lib/plugin/subtitles.js])

    A shallow embedding of the plugin and the properties of its four event
    handlers and of its timestamp formatter.

    Conventions of the embedding.
    - A JavaScript number is a [jsnum]: an integer ([Num z]) or [NaN].  Every
      number the plugin computes with is an integer far below 2^53 in
      magnitude, or [NaN], so integer arithmetic on [Z] is exact.
    - A JavaScript string is a [string]; one element stands for one code unit.
    - [undefined] / [null] are [None].
    - The two sources of non-determinism, [Date.now()] and [uuidv4()], are
      arguments of the handlers that call them.
    - An object used as a dictionary ([steps], [test.artifacts]) is an
      association list of its own properties in insertion order ([Obj]):
      [Object.values] lists them in that order, since the keys are UUIDs and
      artifact names, never array indices.  What a lookup finds on
      [Object.prototype] when there is no own property is in the [Realm].
    - The time zone of the host is a [Host]. *)

From Stdlib Require Import ZArith List String Ascii Bool Lia.
From Stdlib Require Import DecimalString DecimalZ DecimalPos DecimalN.
From Stdlib Require Import Sorted Permutation.
Import ListNotations.

#[local] Open Scope string_scope.
#[local] Open Scope Z_scope.

(** ** JavaScript numbers and strings *)

Inductive jsnum : Type :=
| Num (z : Z)
| NaN.

Definition jsnum_lift2 (f : Z -> Z -> Z) (a b : jsnum) : jsnum :=
  match a, b with
  | Num x, Num y => Num (f x y)
  | _, _ => NaN
  end.

Definition jadd : jsnum -> jsnum -> jsnum := jsnum_lift2 Z.add.
Definition jsub : jsnum -> jsnum -> jsnum := jsnum_lift2 Z.sub.
Definition jmul : jsnum -> jsnum -> jsnum := jsnum_lift2 Z.mul.

(** [ToNumber] of a variable that may still be [undefined]. *)
Definition toNumber (v : option Z) : jsnum :=
  match v with
  | Some z => Num z
  | None => NaN
  end.

(** [Number.prototype.toString()] on an integer below 10^21 in magnitude
    (plain decimal digits, a leading minus sign), and on [NaN]. *)
Definition toString (n : jsnum) : string :=
  match n with
  | Num z => NilZero.string_of_int (Z.to_int z)
  | NaN => "NaN"
  end.

Fixpoint repeat_char (c : ascii) (n : nat) : string :=
  match n with
  | O => EmptyString
  | S n' => String c (repeat_char c n')
  end.

(** [s.padStart(targetLength, c)] for a one-character filler [c]. *)
Definition padStart (targetLength : nat) (c : ascii) (s : string) : string :=
  repeat_char c (targetLength - String.length s) ++ s.

(** [s.replace(c, by)] with a one-character string pattern: only the first
    occurrence is replaced. *)
Fixpoint replace (c : ascii) (by_ : string) (s : string) : string :=
  match s with
  | EmptyString => EmptyString
  | String a s' => if Ascii.eqb a c then by_ ++ s' else String a (replace c by_ s')
  end.

(** Truthiness of a string-valued property that may be absent. *)
Definition truthy (v : option string) : bool :=
  match v with
  | Some s => negb (s =? "")%string
  | None => false
  end.

(** ** The [Date] object, as far as [formatTimestamp] uses it

    The definitions follow the abstract operations of ECMAScript
    (sec. "Date Objects").  A date holds a time value, or is invalid.  The
    time zone is the host's: a [Host] gives the offset of local time from
    UTC, in milliseconds, at a local time and at a UTC time value. *)

Record Host : Type := mkHost {
  offsetAtLocal : Z -> Z;
  offsetAtUTC : Z -> Z
}.

(** A host whose local time is UTC. *)
Definition utc : Host := mkHost (fun _ => 0) (fun _ => 0).

Module JSDate.

Definition msPerSecond : Z := 1000.
Definition msPerMinute : Z := 60000.
Definition msPerHour : Z := 3600000.
Definition msPerDay : Z := 86400000.

(** [LocalTZA(t, isUTC)] *)
Definition LocalTZA (host : Host) (t : Z) (isUTC : bool) : Z :=
  if isUTC then offsetAtUTC host t else offsetAtLocal host t.

Definition t : Type := option Z.

Definition DayFromYear (y : Z) : Z :=
  365 * (y - 1970) + (y - 1969) / 4 - (y - 1901) / 100 + (y - 1601) / 400.

Definition InLeapYear (y : Z) : bool :=
  ((y mod 4 =? 0) && negb (y mod 100 =? 0)) || (y mod 400 =? 0).

(** Days before the first day of month [m] (0-based) within a year. *)
Definition DaysBeforeMonth (leap : bool) (m : Z) : Z :=
  let l := if leap then 1 else 0 in
  match m with
  | 0 => 0 | 1 => 31 | 2 => 59 + l | 3 => 90 + l | 4 => 120 + l
  | 5 => 151 + l | 6 => 181 + l | 7 => 212 + l | 8 => 243 + l
  | 9 => 273 + l | 10 => 304 + l | _ => 334 + l
  end.

Definition MakeDay (year month date : Z) : Z :=
  let ym := year + month / 12 in
  let mn := month mod 12 in
  DayFromYear ym + DaysBeforeMonth (InLeapYear ym) mn + date - 1.

Definition MakeTime (hour min sec : Z) (ms : jsnum) : jsnum :=
  jadd (Num (hour * msPerHour + min * msPerMinute + sec * msPerSecond)) ms.

Definition MakeDate (day : Z) (time : jsnum) : jsnum :=
  jadd (Num (day * msPerDay)) time.

Definition UTC (host : Host) (tm : jsnum) : jsnum :=
  match tm with
  | Num t => Num (t - LocalTZA host t false)
  | NaN => NaN
  end.

Definition LocalTime (host : Host) (tv : Z) : Z := tv + LocalTZA host tv true.

Definition TimeClip (tm : jsnum) : t :=
  match tm with
  | Num z => if Z.abs z <=? 8640000000000000 then Some z else None
  | NaN => None
  end.

(** [new Date(year, month, date, hours, minutes, seconds, ms)]; a year
    from 0 to 99 stands for 1900 + year. *)
Definition make (host : Host) (year month date hours minutes seconds : Z)
    (ms : jsnum) : t :=
  let yr := if (0 <=? year) && (year <=? 99) then 1900 + year else year in
  TimeClip (UTC host (MakeDate (MakeDay yr month date)
                               (MakeTime hours minutes seconds ms))).

Definition field (host : Host) (f : Z -> Z) (d : t) : jsnum :=
  match d with
  | Some tv => Num (f (LocalTime host tv))
  | None => NaN
  end.

Definition getHours (host : Host) : t -> jsnum :=
  field host (fun tl => (tl / msPerHour) mod 24).
Definition getMinutes (host : Host) : t -> jsnum :=
  field host (fun tl => (tl / msPerMinute) mod 60).
Definition getSeconds (host : Host) : t -> jsnum :=
  field host (fun tl => (tl / msPerSecond) mod 60).

End JSDate.

(** ** [formatTimestamp] *)

Definition formatTimestampOn (host : Host) (timestampInMs : jsnum) : string :=
  let date := JSDate.make host 0 0 0 0 0 0 timestampInMs in
  let hours := JSDate.getHours host date in
  let minutes := JSDate.getMinutes host date in
  let seconds := JSDate.getSeconds host date in
  let ms := jsub timestampInMs
                 (jadd (jadd (jmul hours (Num 3600000)) (jmul minutes (Num 60000)))
                       (jmul seconds (Num 1000))) in
  padStart 2 "0" (toString hours) ++ ":" ++ padStart 2 "0" (toString minutes) ++ ":"
    ++ padStart 2 "0" (toString seconds) ++ "#" ++ padStart 3 "0" (toString ms).

(** The formatter on a host whose local time is UTC.  The handlers below are
    stated with it; [formatTimestampOn_settled] extends what is proved of it
    to every host whose zone has no transition in the span formatted. *)
Definition formatTimestamp (timestampInMs : jsnum) : string :=
  formatTimestampOn utc timestampInMs.

(** ** Objects used as dictionaries

    Own string-keyed properties in insertion order.  Assigning to an existing
    key keeps its position; a new key goes last. *)

Module Obj.

Definition t (V : Type) : Type := list (string * V).

Definition empty {V : Type} : t V := [].

Fixpoint get {V : Type} (k : string) (o : t V) : option V :=
  match o with
  | [] => None
  | (k', v) :: o' => if (k' =? k)%string then Some v else get k o'
  end.

Fixpoint set {V : Type} (k : string) (v : V) (o : t V) : t V :=
  match o with
  | [] => [(k, v)]
  | (k', v') :: o' =>
      if (k' =? k)%string then (k, v) :: o' else (k', v') :: set k v o'
  end.

Definition keys {V : Type} (o : t V) : list string := map fst o.
Definition values {V : Type} (o : t V) : list V := map snd o.

End Obj.

(** ** Completions: a handler returns normally or throws *)

Inductive Error : Type :=
| TypeError
| WriteError.

Inductive completion (A : Type) : Type :=
| Normal (a : A)
| Throw (e : Error).

Arguments Normal {A} a.
Arguments Throw {A} e.

Definition bind {A B : Type} (c : completion A) (k : A -> completion B) : completion B :=
  match c with
  | Normal a => k a
  | Throw e => Throw e
  end.

Notation "x <- c ;; k" := (bind c (fun x => k))
  (at level 61, c at next level, right associativity).

(** ** The data of the plugin *)

(** A value of [steps]: [{ start, startedAt, title }], and [end] once the step
    has finished. *)
Record StepRecord : Type := mkStepRecord {
  start : string;
  startedAt : Z;
  title : string;
  end_ : option string
}.

(** The module-level variables [steps] and [testStartedAt]. *)
Record Session : Type := mkSession {
  steps : Obj.t StepRecord;
  testStartedAt : option Z
}.

(** The state when the module is loaded: [let steps = {}; let testStartedAt;] *)
Definition initial : Session := mkSession Obj.empty None.

(** The payload of the step events; [args] holds the arguments as [join]
    prints them. *)
Record Step : Type := mkStep {
  actor : string;
  name : string;
  args : option (list string);
  id : option string
}.

Record Test : Type := mkTest {
  artifacts : option (Obj.t string)
}.

Record Config : Type := mkConfig {
  format : option string
}.

(** The part of [path.parse]'s result that the plugin reads. *)
Record ParsedPath : Type := mkParsedPath {
  dir : string;
  base_name : string
}.

(** The files written so far, and the paths at which [writeFile] is rejected
    by the host. *)
Record FileSystem : Type := mkFileSystem {
  files : Obj.t string;
  rejected : list string
}.

Definition writeFile (path data : string) (fs : FileSystem) : completion FileSystem :=
  if existsb (String.eqb path) (rejected fs) then Throw WriteError
  else Normal (mkFileSystem (Obj.set path data (files fs)) (rejected fs)).

(** Reading a property of a value that may be [undefined] or [null]. *)
Definition prop {O A : Type} (o : option O) (f : O -> A) : completion A :=
  match o with
  | Some x => Normal (f x)
  | None => Throw TypeError
  end.

(** [ToPropertyKey] of a value used as the key of a lookup. *)
Definition toPropertyKey (v : option string) : string :=
  match v with
  | Some k => k
  | None => "undefined"
  end.

Definition isSome {A : Type} (o : option A) : bool :=
  match o with
  | Some _ => true
  | None => false
  end.

(** ** The event handlers *)

(** [event.test.before] *)
Definition testBefore (now : Z) (s : Session) : Session :=
  mkSession Obj.empty (Some now).

Definition max_title : nat := 100.

(** The label of a step, lines 44 to 47. *)
Definition stepTitle (step : Step) : string :=
  let title :=
    actor step ++ "." ++ name step ++ "("
      ++ match args step with
         | Some a => String.concat "," a
         | None => ""
         end ++ ")" in
  if (max_title <? String.length title)%nat
  then substring 0 max_title title ++ "..."
  else title.

Definition elapsed (now : Z) (s : Session) : jsnum :=
  jsub (Num now) (toNumber (testStartedAt s)).

(** [event.step.started]; returns the payload too, which now carries [uuid],
    the value of [uuidv4()]: 36 characters, hexadecimal digits and hyphens. *)
Definition stepStarted (now : Z) (uuid : string) (step : Step) (s : Session)
  : Session * Step :=
  let stepStartedAt := now in
  let step' := mkStep (actor step) (name step) (args step) (Some uuid) in
  let title := stepTitle step' in
  (mkSession
     (Obj.set uuid
        (mkStepRecord (formatTimestamp (elapsed stepStartedAt s)) stepStartedAt title None)
        (steps s))
     (testStartedAt s),
   step').

Definition setEnd (e : string) (r : StepRecord) : StepRecord :=
  mkStepRecord (start r) (startedAt r) (title r) (Some e).

(** *** The prototype of [steps] and of its records

    [steps] and the records are plain objects, so a property they do not own
    is looked up on [Object.prototype].  The [Realm] holds what the plugin can
    write there: an [end] property of [Object.prototype] itself, and [end]
    properties of its built-in methods. *)

Record Realm : Type := mkRealm {
  prototypeEnd : option string;
  methodEnds : Obj.t string
}.

(** The realm as the engine sets it up. *)
Definition pristine : Realm := mkRealm None Obj.empty.

(** The function-valued properties of [Object.prototype]. *)
Definition prototypeMethods : list string :=
  ["constructor"; "__defineGetter__"; "__defineSetter__"; "hasOwnProperty";
   "__lookupGetter__"; "__lookupSetter__"; "isPrototypeOf"; "propertyIsEnumerable";
   "toString"; "valueOf"; "toLocaleString"].

(** What [steps[key]] evaluates to, when it is not [undefined]. *)
Inductive Found : Type :=
| OwnRecord (r : StepRecord)
| ThePrototype
| Method (name : string)
| InheritedEnd (e : string).

(** [steps[key]]: an own property; else the accessor [__proto__], a built-in
    method, or the [end] that a finish event put on the prototype. *)
Definition lookup (realm : Realm) (key : string) (o : Obj.t StepRecord)
  : option Found :=
  match Obj.get key o with
  | Some r => Some (OwnRecord r)
  | None =>
      if (key =? "__proto__")%string then Some ThePrototype
      else if existsb (String.eqb key) prototypeMethods then Some (Method key)
      else if (key =? "end")%string then option_map InheritedEnd (prototypeEnd realm)
      else None
  end.

(** Objects and functions are truthy, a string is unless it is empty. *)
Definition truthyFound (f : option Found) : bool :=
  match f with
  | Some (InheritedEnd e) => truthy (Some e)
  | Some _ => true
  | None => false
  end.

(** [target.end = v], where [target] is what [steps[key]] evaluated to.  The
    module is not in strict mode: on a string the assignment does nothing. *)
Definition assignEnd (key v : string) (target : Found) (s : Session) (realm : Realm)
  : Session * Realm :=
  match target with
  | OwnRecord r =>
      (mkSession (Obj.set key (setEnd v r) (steps s)) (testStartedAt s), realm)
  | ThePrototype => (s, mkRealm (Some v) (methodEnds realm))
  | Method name => (s, mkRealm (prototypeEnd realm) (Obj.set name v (methodEnds realm)))
  | InheritedEnd _ => (s, realm)
  end.

(** [step.end] of a record: its own, else the prototype's. *)
Definition endOf (realm : Realm) (step : StepRecord) : option string :=
  match end_ step with
  | Some e => Some e
  | None => prototypeEnd realm
  end.

(** [event.step.finished]: the condition [step && step.id && steps[step.id]]
    with its short-circuits, then the assignment to [steps[step.id].end]. *)
Definition stepFinishedIn (realm : Realm) (now : Z) (step : option Step) (s : Session)
  : completion (Session * Realm) :=
  cond <- (if isSome step then
             i <- prop step id ;;
             if truthy i then Normal (truthyFound (lookup realm (toPropertyKey i) (steps s)))
             else Normal false
           else Normal false) ;;
  if (cond : bool) then
    i <- prop step id ;;
    target <- prop (lookup realm (toPropertyKey i) (steps s)) (fun f => f) ;;
    Normal (assignEnd (toPropertyKey i) (formatTimestamp (elapsed now s)) target s realm)
  else Normal (s, realm).

(** What [event.step.finished] does to the session; it is the same in every
    realm ([stepFinishedIn_session]). *)
Definition stepFinished (now : Z) (step : option Step) (s : Session)
  : completion Session :=
  w <- stepFinishedIn pristine now step s ;; Normal (fst w).

(** *** Sorting and rendering *)

(** The comparator handed to [sort]. *)
Definition byStartedAt (stepA stepB : StepRecord) : Z :=
  startedAt stepA - startedAt stepB.

(** [Array.prototype.sort] is stable and, for a consistent comparator, its
    result does not depend on the algorithm the engine picks; it is modelled
    by insertion, from the right. *)
Fixpoint insert {A : Type} (cmp : A -> A -> Z) (x : A) (l : list A) : list A :=
  match l with
  | [] => [x]
  | y :: l' => if cmp x y <=? 0 then x :: l else y :: insert cmp x l'
  end.

Fixpoint sort {A : Type} (cmp : A -> A -> Z) (l : list A) : list A :=
  match l with
  | [] => []
  | x :: l' => insert cmp x (sort cmp l')
  end.

Definition LF : string := String "010" EmptyString.

(** The text one finished step adds to the subtitle, lines 86 to 90. *)
Definition cue (msIdentifier : string) (index : nat) (step : StepRecord) (e : string)
  : string :=
  toString (Num (Z.of_nat index + 1)) ++ LF
    ++ replace "#" msIdentifier (start step) ++ " --> " ++ replace "#" msIdentifier e ++ LF
    ++ title step ++ LF
    ++ LF.

(** The [forEach] loop of lines 84 to 92, from position [index] on. *)
Fixpoint forEachIn (realm : Realm) (msIdentifier : string) (l : list StepRecord)
    (index : nat) (subtitle : string) : string :=
  match l with
  | [] => subtitle
  | step :: l' =>
      forEachIn realm msIdentifier l' (S index)
        (match endOf realm step with
         | Some e =>
             if truthy (Some e) then subtitle ++ cue msIdentifier index step e
             else subtitle
         | None => subtitle
         end)
  end.

(** The loop in the pristine realm. *)
Definition forEach (msIdentifier : string) (l : list StepRecord) (index : nat)
    (subtitle : string) : string :=
  forEachIn pristine msIdentifier l index subtitle.

Definition subtitleFormat (config : Config) : string :=
  match format config with
  | Some f => if (f =? "WEBVTT")%string then "vtt" else "srt"
  | None => "srt"
  end.

Definition msIdentifier (config : Config) : string :=
  if (subtitleFormat config =? "vtt")%string then "." else ",".

(** The document built by lines 64 to 92. *)
Definition renderIn (realm : Realm) (config : Config) (s : Session) : string :=
  let stepsSortedByStartTime := sort byStartedAt (Obj.values (steps s)) in
  let subtitle :=
    if (subtitleFormat config =? "vtt")%string then "WEBVTT" ++ LF ++ LF else "" in
  forEachIn realm (msIdentifier config) stepsSortedByStartTime 0 subtitle.

(** The document in the pristine realm. *)
Definition render (config : Config) (s : Session) : string :=
  renderIn pristine config s.

Section Emitter.

(** [path.parse] of the host's [path] module. *)
Variable path_parse : string -> ParsedPath.

Definition outputPath (config : Config) (video : string) : string :=
  let p := path_parse video in
  dir p ++ "/" ++ base_name p ++ "." ++ subtitleFormat config.

(** [event.test.after].  Nothing is mutated before [writeFile] settles, so
    a throw leaves the file system and the test as they were. *)
Definition testAfterIn (realm : Realm) (config : Config) (test : option Test)
    (s : Session) (fs : FileSystem) : completion (FileSystem * option Test) :=
  cond <- (if isSome test then
             a <- prop test artifacts ;;
             if isSome a then
               v <- prop a (Obj.get "video") ;;
               Normal (truthy v)
             else Normal false
           else Normal false) ;;
  if (cond : bool) then
    let subtitle := renderIn realm config s in
    a <- prop test artifacts ;;
    v <- prop a (Obj.get "video") ;;
    path <- prop v (outputPath config) ;;
    fs' <- writeFile path subtitle fs ;;
    a1 <- prop test artifacts ;;
    a2 <- prop a1 (Obj.set "subtitle" path) ;;
    Normal (fs', Some (mkTest (Some a2)))
  else Normal (fs, test).

(** The handler in the pristine realm. *)
Definition testAfter (config : Config) (test : option Test) (s : Session)
    (fs : FileSystem) : completion (FileSystem * option Test) :=
  testAfterIn pristine config test s fs.

End Emitter.

(** *** Runs of the plugin over a sequence of events *)

Inductive Event : Type :=
| TestBefore (now : Z)
| StepStarted (now : Z) (uuid : string) (step : Step)
| StepFinished (now : Z) (step : option Step).

Definition handle (ev : Event) (s : Session) : completion Session :=
  match ev with
  | TestBefore now => Normal (testBefore now s)
  | StepStarted now uuid step => Normal (fst (stepStarted now uuid step s))
  | StepFinished now step => stepFinished now step s
  end.

Fixpoint run (evs : list Event) (s : Session) : completion Session :=
  match evs with
  | [] => Normal s
  | ev :: evs' => s' <- handle ev s ;; run evs' s'
  end.

(** The same with the realm, which only step finish can change. *)
Definition handleIn (ev : Event) (w : Session * Realm) : completion (Session * Realm) :=
  match ev with
  | TestBefore now => Normal (testBefore now (fst w), snd w)
  | StepStarted now uuid step => Normal (fst (stepStarted now uuid step (fst w)), snd w)
  | StepFinished now step => stepFinishedIn (snd w) now step (fst w)
  end.

Fixpoint runIn (evs : list Event) (w : Session * Realm) : completion (Session * Realm) :=
  match evs with
  | [] => Normal w
  | ev :: evs' => w' <- handleIn ev w ;; runIn evs' w'
  end.

(** A stand-in for [path.parse], to run the emitter on examples: [dir] is
    what precedes the last slash, [name] what lies between it and the last
    dot.  It agrees with [path.parse] on paths [/dir/name.ext] whose directory
    is not the root and whose name does not begin with a dot. *)
Module SimplePath.

Fixpoint split_last (c : ascii) (s : string) : option (string * string) :=
  match s with
  | EmptyString => None
  | String a s' =>
      match split_last c s' with
      | Some (l, r) => Some (String a l, r)
      | None => if Ascii.eqb a c then Some (EmptyString, s') else None
      end
  end.

Definition parse (p : string) : ParsedPath :=
  let '(d, b) := match split_last "/" p with
                 | Some (d, b) => (d, b)
                 | None => (EmptyString, p)
                 end in
  match split_last "." b with
  | Some (n, _) => mkParsedPath d n
  | None => mkParsedPath d b
  end.

End SimplePath.

(** ** The paired parser of the specification

    It has no counterpart in the source.  It reads [HH:MM:SS#mmm] as the
    specification lays it out: decimal digits delimited by the two colons and
    the hash, two or more for the hours (which may exceed 99), exactly two for
    the minutes and for the seconds, exactly three for the milliseconds.  It
    returns hours * 3600000 + minutes * 60000 + seconds * 1000 + milliseconds. *)

Fixpoint split_first (c : ascii) (s : string) : option (string * string) :=
  match s with
  | EmptyString => None
  | String a s' =>
      if Ascii.eqb a c then Some (EmptyString, s')
      else match split_first c s' with
           | Some (l, r) => Some (String a l, r)
           | None => None
           end
  end.

Definition parse_field (s : string) : option Z :=
  option_map Z.of_uint (NilZero.uint_of_string s).

(** A field of exactly [width] digits, or of [width] digits or more. *)
Definition parse_width (or_more : bool) (width : nat) (s : string) : option Z :=
  if (if or_more then width <=? String.length s else String.length s =? width)%nat
  then parse_field s
  else None.

Definition parseTimestamp (s : string) : option Z :=
  match split_first ":" s with
  | Some (hh, s1) =>
      match split_first ":" s1 with
      | Some (mm, s2) =>
          match split_first "#" s2 with
          | Some (ss, mmm) =>
              match parse_width true 2 hh, parse_width false 2 mm,
                    parse_width false 2 ss, parse_width false 3 mmm with
              | Some h, Some m, Some sec, Some ms =>
                  Some (h * 3600000 + m * 60000 + sec * 1000 + ms)
              | _, _, _, _ => None
              end
          | None => None
          end
      | None => None
      end
  | None => None
  end.

(** ** Auxiliary notions for the statements *)

(** [c] does not occur in [s]. *)
Fixpoint lacks (c : ascii) (s : string) : bool :=
  match s with
  | EmptyString => true
  | String a s' => negb (Ascii.eqb a c) && lacks c s'
  end.

Definition is_digit (a : ascii) : bool :=
  match NilEmpty.uint_of_string (String a EmptyString) with
  | Some _ => true
  | None => false
  end.

Fixpoint all_digits (s : string) : bool :=
  match s with
  | EmptyString => true
  | String a s' => is_digit a && all_digits s'
  end.

(** The decimal numeral of a natural number. *)
Definition numeral (z : Z) : Decimal.uint :=
  match z with
  | Zpos p => Pos.to_uint p
  | _ => Decimal.zero
  end.

(** The numbers that the formatter prints in its four fields. *)
Definition hours_of (m : Z) : Z := (m / 3600000) mod 24.
Definition minutes_of (m : Z) : Z := (m / 60000) mod 60.
Definition seconds_of (m : Z) : Z := (m / 1000) mod 60.
Definition millis_of (m : Z) : Z :=
  m - (hours_of m * 3600000 + minutes_of m * 60000 + seconds_of m * 1000).

(** The largest argument for which the [Date] of [formatTimestamp] is valid
    on a host on UTC: 8.64e15 ms after the epoch, counted from 1899-12-31. *)
Definition max_timestamp : Z := 8640000000000000 + 2209075200000.

(** The cues of a list of records, numbered from [index]: the text that
    [forEach] appends to its accumulator. *)
Fixpoint body (sep : string) (l : list StepRecord) (index : nat) : string :=
  match l with
  | [] => ""
  | step :: l' =>
      match end_ step with
      | Some e => if truthy (Some e) then cue sep index step e else ""
      | None => ""
      end ++ body sep l' (S index)
  end.

(** The same in a realm, where a record may inherit its end. *)
Fixpoint bodyIn (realm : Realm) (sep : string) (l : list StepRecord) (index : nat)
  : string :=
  match l with
  | [] => ""
  | step :: l' =>
      match endOf realm step with
      | Some e => if truthy (Some e) then cue sep index step e else ""
      | None => ""
      end ++ bodyIn realm sep l' (S index)
  end.

Definition startOrder (a b : StepRecord) : Prop := startedAt a <= startedAt b.

Definition sameStart (t : Z) (r : StepRecord) : bool := startedAt r =? t.

(** The text before the first cue. *)
Definition header (config : Config) : string :=
  match format config with
  | Some f => if (f =? "WEBVTT")%string then "WEBVTT" ++ LF ++ LF else ""
  | None => ""
  end.

(** Three steps start one millisecond apart; the first and the third
    finish, the second never does. *)
Definition plainStep (a n : string) (i : option string) : Step :=
  mkStep a n (Some ["x"; "y"]) i.

Definition three_steps : list Event :=
  [TestBefore 1000;
   StepStarted 1001 "id-a" (plainStep "I" "amOnPage" None);
   StepStarted 1002 "id-b" (plainStep "I" "click" None);
   StepStarted 1003 "id-c" (plainStep "I" "see" None);
   StepFinished 1500 (Some (plainStep "I" "see" (Some "id-c")));
   StepFinished 3500 (Some (plainStep "I" "amOnPage" (Some "id-a")))].

(** The session these events leave behind. *)
Definition three_steps_final : Session :=
  Eval vm_compute in
    match run three_steps initial with
    | Normal s => s
    | Throw _ => initial
    end.

(** The records of its first and of its third step. *)
Definition record_a : StepRecord :=
  mkStepRecord "00:00:00#001" 1001 "I.amOnPage(x,y)" (Some "00:00:02#500").

Definition record_c : StepRecord :=
  mkStepRecord "00:00:00#003" 1003 "I.see(x,y)" (Some "00:00:00#500").

(** The video entry of the artifacts of a test, if the test, its artifact
    map and the entry are there. *)
Definition video_of (test : option Test) : option string :=
  match test with
  | Some t =>
      match artifacts t with
      | Some a => Obj.get "video" a
      | None => None
      end
  | None => None
  end.

(** A test whose only artifact is a video, and a file system that has
    nothing and rejects nothing. *)
Definition video_test : option Test := Some (mkTest (Some [("video", "/a/b/test.mp4")])).
Definition empty_fs : FileSystem := mkFileSystem Obj.empty [].

(** A session of two started steps, none finished. *)
Definition unfinished_session : Session :=
  Eval vm_compute in
    match run [TestBefore 1000;
               StepStarted 1001 "id-a" (plainStep "I" "amOnPage" None);
               StepStarted 1002 "id-b" (plainStep "I" "click" None)] initial with
    | Normal s => s
    | Throw _ => initial
    end.

(** A step whose label has 113 characters. *)
Definition long_step : Step :=
  mkStep "I" "fillField"
    (Some ["#search"; repeat_char "a" 50; repeat_char "b" 42]) None.

(** The two sides of the hash in a formatted timestamp. *)
Definition clock (n : jsnum) : string :=
  let date := JSDate.make utc 0 0 0 0 0 0 n in
  padStart 2 "0" (toString (JSDate.getHours utc date)) ++ ":"
    ++ padStart 2 "0" (toString (JSDate.getMinutes utc date)) ++ ":"
    ++ padStart 2 "0" (toString (JSDate.getSeconds utc date)).

Definition millis (n : jsnum) : string :=
  let date := JSDate.make utc 0 0 0 0 0 0 n in
  padStart 3 "0"
    (toString
       (jsub n
          (jadd (jadd (jmul (JSDate.getHours utc date) (Num 3600000))
                      (jmul (JSDate.getMinutes utc date) (Num 60000)))
                (jmul (JSDate.getSeconds utc date) (Num 1000))))).

(** Both offsets of a record were printed by the formatter. *)
Definition stamped (r : StepRecord) : Prop :=
  (exists a, start r = formatTimestamp a)
  /\ (forall e, end_ r = Some e -> exists b, e = formatTimestamp b).

(** Every number below [n], padded to [w] characters, has exactly [w]
    characters. *)
Definition fits_width (w n : nat) : bool :=
  forallb
    (fun k => Nat.eqb (String.length (padStart w "0" (toString (Num (Z.of_nat k))))) w)
    (seq 0 n).

(** What the formatter prints for an elapsed time that is not a number. *)
Definition nan_stamp : string := "NaN:NaN:NaN#NaN".

(** Both offsets of a record, as far as they are set, are [nan_stamp]. *)
Definition nan_stamped (r : StepRecord) : Prop :=
  start r = nan_stamp /\ (forall e, end_ r = Some e -> e = nan_stamp).

(** Two step events with no test start before them. *)
Definition orphan_steps : list Event :=
  [StepStarted 1001 "id-a" (plainStep "I" "amOnPage" None);
   StepFinished 1500 (Some (plainStep "I" "amOnPage" (Some "id-a")))].

(** The record of the second of the three steps, and the session with the
    three records stored in the opposite order. *)
Definition record_b : StepRecord :=
  mkStepRecord "00:00:00#002" 1002 "I.click(x,y)" None.

Definition three_steps_reversed : Session :=
  mkSession [("id-c", record_c); ("id-b", record_b); ("id-a", record_a)] (Some 1000).

(** A file system on which the subtitle of [video_test] cannot be written. *)
Definition readonly_fs : FileSystem := mkFileSystem Obj.empty ["/a/b/test.srt"].

(** A host five hours west of UTC the whole year. *)
Definition five_hours_west : Host :=
  mkHost (fun _ => -18000000) (fun _ => -18000000).

(** * Properties *)

(** ** Strings *)

Lemma append_nil_r (s : string) : s ++ "" = s.
Proof. induction s as [|a s IH]; simpl; [reflexivity | now rewrite IH]. Qed.

Lemma append_assoc (a b c : string) : (a ++ b) ++ c = a ++ (b ++ c).
Proof. induction a as [|x a IH]; simpl; [reflexivity | now rewrite IH]. Qed.

Lemma length_append (a b : string) :
  String.length (a ++ b) = (String.length a + String.length b)%nat.
Proof. induction a as [|x a IH]; simpl; [reflexivity | now rewrite IH]. Qed.

Lemma lacks_append c a b : lacks c (a ++ b) = lacks c a && lacks c b.
Proof.
  induction a as [|x a IH]; simpl; [reflexivity|].
  now rewrite IH, andb_assoc.
Qed.

Lemma split_first_append c a b :
  lacks c a = true -> split_first c (a ++ String c b) = Some (a, b).
Proof.
  induction a as [|x a IH]; simpl.
  - now rewrite Ascii.eqb_refl.
  - intros H. apply andb_true_iff in H as [Hx Ha].
    apply negb_true_iff in Hx. rewrite Hx, (IH Ha). reflexivity.
Qed.

Lemma replace_append c by_ a b :
  lacks c a = true -> replace c by_ (a ++ String c b) = a ++ by_ ++ b.
Proof.
  induction a as [|x a IH]; simpl.
  - now rewrite Ascii.eqb_refl.
  - intros H. apply andb_true_iff in H as [Hx Ha].
    apply negb_true_iff in Hx. rewrite Hx, (IH Ha). reflexivity.
Qed.

(** ** Decimal numerals *)

Lemma all_digits_uint (d : Decimal.uint) : all_digits (NilEmpty.string_of_uint d) = true.
Proof. induction d; simpl; auto. Qed.

Lemma all_digits_repeat n : all_digits (repeat_char "0" n) = true.
Proof. induction n; simpl; auto. Qed.

Lemma all_digits_append a b :
  all_digits (a ++ b) = all_digits a && all_digits b.
Proof.
  induction a as [|x a IH]; simpl; [reflexivity|].
  now rewrite IH, andb_assoc.
Qed.

Lemma all_digits_lacks c s :
  is_digit c = false -> all_digits s = true -> lacks c s = true.
Proof.
  intros Hc. induction s as [|a s IH]; simpl; [reflexivity|].
  intros H. apply andb_true_iff in H as [Ha Hs].
  rewrite (IH Hs), andb_true_r. apply negb_true_iff.
  destruct (Ascii.eqb_spec a c) as [->|]; [congruence | reflexivity].
Qed.

Lemma numeral_nonnil z : numeral z <> Decimal.Nil.
Proof.
  destruct z; simpl; try discriminate. apply DecimalPos.Unsigned.to_uint_nonnil.
Qed.

Lemma toString_nonneg z :
  0 <= z -> toString (Num z) = NilEmpty.string_of_uint (numeral z).
Proof.
  intros Hz. unfold toString.
  destruct z as [|p|p]; [reflexivity | | lia].
  simpl. pose proof (DecimalPos.Unsigned.to_uint_nonnil p) as Hp.
  unfold NilZero.string_of_uint. destruct (Pos.to_uint p); congruence.
Qed.

Lemma of_uint_numeral z : 0 <= z -> Z.of_uint (numeral z) = z.
Proof.
  intros Hz. destruct z as [|p|p]; [reflexivity | | lia].
  unfold Z.of_uint. simpl. now rewrite DecimalPos.Unsigned.of_to.
Qed.

Lemma parse_field_padded n z :
  0 <= z -> parse_field (padStart n "0" (toString (Num z))) = Some z.
Proof.
  intros Hz. rewrite (toString_nonneg z Hz). unfold padStart, parse_field.
  generalize (n - String.length (NilEmpty.string_of_uint (numeral z)))%nat as k.
  intros k.
  assert (Hne : forall d, d <> Decimal.Nil ->
            NilZero.uint_of_string (NilEmpty.string_of_uint d)
            = Some d).
  { intros d Hd. unfold NilZero.uint_of_string.
    rewrite <- (NilEmpty.usu d). destruct d; simpl; congruence. }
  assert (Hk : NilZero.uint_of_string
                 (repeat_char "0" k ++ NilEmpty.string_of_uint (numeral z))
               = Some (Nat.iter k Decimal.D0 (numeral z))).
  { induction k as [|k IH].
    - simpl. apply Hne, numeral_nonnil.
    - simpl. unfold NilZero.uint_of_string in IH.
      destruct (repeat_char "0" k ++ NilEmpty.string_of_uint (numeral z))%string eqn:E.
      + discriminate.
      + rewrite IH. reflexivity. }
  rewrite Hk. simpl. f_equal.
  rewrite <- (of_uint_numeral z Hz) at 2.
  clear. induction k as [|k IH]; simpl; [reflexivity|].
  unfold Z.of_uint in *. simpl. exact IH.
Qed.

Lemma padded_digits n z :
  0 <= z -> all_digits (padStart n "0" (toString (Num z))) = true.
Proof.
  intros Hz. rewrite (toString_nonneg z Hz). unfold padStart.
  now rewrite all_digits_append, all_digits_repeat, all_digits_uint.
Qed.

(** ** The formatter on a valid date *)

(** The local time value that the constructor computes for an argument:
    the argument counted from 1899-12-31T00:00. *)
Lemma make_local host m :
  JSDate.make host 0 0 0 0 0 0 (Num m)
  = JSDate.TimeClip
      (Num (m - 25568 * 86400000 - offsetAtLocal host (m - 25568 * 86400000))).
Proof.
  unfold JSDate.make, JSDate.MakeDate, JSDate.MakeTime.
  change (JSDate.MakeDay _ 0 0) with (-25568).
  unfold jadd, jsnum_lift2, JSDate.msPerDay, JSDate.msPerHour,
    JSDate.msPerMinute, JSDate.msPerSecond, JSDate.UTC, JSDate.LocalTZA.
  replace (-25568 * 86400000 + (0 * 3600000 + 0 * 60000 + 0 * 1000 + m))
    with (m - 25568 * 86400000) by lia.
  reflexivity.
Qed.

Lemma make_valid m :
  - 8640000000000000 + 2209075200000 <= m <= max_timestamp ->
  JSDate.make utc 0 0 0 0 0 0 (Num m) = Some (m - 25568 * 86400000).
Proof.
  unfold max_timestamp. intros Hm. rewrite make_local. cbn [utc offsetAtLocal].
  rewrite Z.sub_0_r. unfold JSDate.TimeClip.
  destruct (Z.leb_spec (Z.abs (m - 25568 * 86400000)) 8640000000000000);
    [reflexivity | lia].
Qed.

Lemma make_invalid m :
  max_timestamp < m -> JSDate.make utc 0 0 0 0 0 0 (Num m) = None.
Proof.
  unfold max_timestamp. intros Hm. rewrite make_local. cbn [utc offsetAtLocal].
  rewrite Z.sub_0_r. unfold JSDate.TimeClip.
  destruct (Z.leb_spec (Z.abs (m - 25568 * 86400000)) 8640000000000000);
    [lia | reflexivity].
Qed.

Lemma shift_hours m : ((m - 25568 * 86400000) / 3600000) mod 24 = hours_of m.
Proof.
  unfold hours_of.
  replace (m - 25568 * 86400000) with (m + (-25568 * 24) * 3600000) by lia.
  rewrite Z.div_add by lia.
  replace (m / 3600000 + -25568 * 24) with (m / 3600000 + (-25568) * 24) by lia.
  now rewrite Z.mod_add by lia.
Qed.

Lemma shift_minutes m : ((m - 25568 * 86400000) / 60000) mod 60 = minutes_of m.
Proof.
  unfold minutes_of.
  replace (m - 25568 * 86400000) with (m + (-25568 * 1440) * 60000) by lia.
  rewrite Z.div_add by lia.
  replace (m / 60000 + -25568 * 1440) with (m / 60000 + (-25568 * 24) * 60) by lia.
  now rewrite Z.mod_add by lia.
Qed.

Lemma shift_seconds m : ((m - 25568 * 86400000) / 1000) mod 60 = seconds_of m.
Proof.
  unfold seconds_of.
  replace (m - 25568 * 86400000) with (m + (-25568 * 86400) * 1000) by lia.
  rewrite Z.div_add by lia.
  replace (m / 1000 + -25568 * 86400) with (m / 1000 + (-25568 * 1440) * 60) by lia.
  now rewrite Z.mod_add by lia.
Qed.

(** On a host, for an argument whose date is valid and whose local time the
    zone maps to UTC and back to itself, the formatter prints the hour of the
    day, not the number of hours, and leaves the excess in the last field. *)
Lemma formatTimestampOn_valid host m :
  let local := m - 25568 * 86400000 in
  Z.abs (local - offsetAtLocal host local) <= 8640000000000000 ->
  offsetAtUTC host (local - offsetAtLocal host local) = offsetAtLocal host local ->
  formatTimestampOn host (Num m)
  = padStart 2 "0" (toString (Num (hours_of m))) ++ ":"
      ++ padStart 2 "0" (toString (Num (minutes_of m))) ++ ":"
      ++ padStart 2 "0" (toString (Num (seconds_of m))) ++ "#"
      ++ padStart 3 "0" (toString (Num (millis_of m))).
Proof.
  intros local Hv Hz. unfold formatTimestampOn. rewrite make_local. fold local.
  unfold JSDate.TimeClip.
  destruct (Z.leb_spec (Z.abs (local - offsetAtLocal host local)) 8640000000000000);
    [|lia].
  unfold JSDate.getHours, JSDate.getMinutes, JSDate.getSeconds, JSDate.field,
    JSDate.LocalTime, JSDate.LocalTZA, JSDate.msPerHour, JSDate.msPerMinute,
    JSDate.msPerSecond.
  rewrite Hz.
  replace (local - offsetAtLocal host local + offsetAtLocal host local)
    with (m - 25568 * 86400000) by (unfold local; lia).
  rewrite shift_hours, shift_minutes, shift_seconds. reflexivity.
Qed.

Lemma formatTimestamp_valid m :
  - 8640000000000000 + 2209075200000 <= m <= max_timestamp ->
  formatTimestamp (Num m)
  = padStart 2 "0" (toString (Num (hours_of m))) ++ ":"
      ++ padStart 2 "0" (toString (Num (minutes_of m))) ++ ":"
      ++ padStart 2 "0" (toString (Num (seconds_of m))) ++ "#"
      ++ padStart 3 "0" (toString (Num (millis_of m))).
Proof.
  unfold max_timestamp. intros Hm. apply formatTimestampOn_valid.
  - cbn [utc offsetAtLocal]. lia.
  - reflexivity.
Qed.

(** On a host and for an argument as above, the formatter prints what it
    prints on a host on UTC. *)
Lemma formatTimestampOn_settled host m :
  let local := m - 25568 * 86400000 in
  Z.abs (local - offsetAtLocal host local) <= 8640000000000000 ->
  Z.abs local <= 8640000000000000 ->
  offsetAtUTC host (local - offsetAtLocal host local) = offsetAtLocal host local ->
  formatTimestampOn host (Num m) = formatTimestamp (Num m).
Proof.
  intros local Hv Hu Hz.
  rewrite (formatTimestampOn_valid host m Hv Hz).
  symmetry. apply formatTimestamp_valid. unfold max_timestamp, local in *. lia.
Qed.

Lemma formatTimestamp_invalid m :
  max_timestamp < m -> formatTimestamp (Num m) = "NaN:NaN:NaN#NaN".
Proof.
  intros Hm. unfold formatTimestamp, formatTimestampOn.
  rewrite (make_invalid m Hm). reflexivity.
Qed.

Lemma fields_nonneg m :
  0 <= m ->
  0 <= hours_of m < 24 /\ 0 <= minutes_of m < 60 /\ 0 <= seconds_of m < 60
  /\ 0 <= millis_of m.
Proof.
  intros Hm. unfold millis_of, hours_of, minutes_of, seconds_of.
  pose proof (Z.mod_pos_bound (m / 3600000) 24 ltac:(lia)) as Hh.
  pose proof (Z.mod_pos_bound (m / 60000) 60 ltac:(lia)) as Hmi.
  pose proof (Z.mod_pos_bound (m / 1000) 60 ltac:(lia)) as Hs.
  repeat split; try lia.
  pose proof (Z.div_mod m 1000 ltac:(lia)) as E1.
  pose proof (Z.mod_pos_bound m 1000 ltac:(lia)) as B1.
  pose proof (Z.div_mod (m / 1000) 60 ltac:(lia)) as E2.
  pose proof (Z.div_mod (m / 60000) 60 ltac:(lia)) as E3.
  pose proof (Z.div_mod (m / 3600000) 24 ltac:(lia)) as E4.
  assert (D2 : m / 60000 = m / 1000 / 60) by (rewrite Z.div_div by lia; reflexivity).
  assert (D3 : m / 3600000 = m / 60000 / 60) by (rewrite Z.div_div by lia; reflexivity).
  assert (0 <= m / 3600000 / 24) by (apply Z.div_pos; [apply Z.div_pos|]; lia).
  lia.
Qed.

(** Below 24 hours the formatter prints the decomposition of its argument
    into hours, minutes, seconds and milliseconds. *)
Lemma formatTimestamp_within_a_day m :
  0 <= m < 86400000 ->
  formatTimestamp (Num m)
  = padStart 2 "0" (toString (Num (m / 3600000))) ++ ":"
      ++ padStart 2 "0" (toString (Num ((m / 60000) mod 60))) ++ ":"
      ++ padStart 2 "0" (toString (Num ((m / 1000) mod 60))) ++ "#"
      ++ padStart 3 "0" (toString (Num (m mod 1000))).
Proof.
  intros Hm. rewrite formatTimestamp_valid by (unfold max_timestamp; lia).
  assert (Hh : hours_of m = m / 3600000).
  { unfold hours_of. apply Z.mod_small. split.
    - apply Z.div_pos; lia.
    - apply Z.div_lt_upper_bound; lia. }
  assert (Hr : millis_of m = m mod 1000).
  { unfold millis_of. rewrite Hh. unfold minutes_of, seconds_of.
    pose proof (Z.div_mod m 1000 ltac:(lia)) as E1.
    pose proof (Z.div_mod (m / 1000) 60 ltac:(lia)) as E2.
    pose proof (Z.div_mod (m / 60000) 60 ltac:(lia)) as E3.
    assert (D2 : m / 60000 = m / 1000 / 60) by (rewrite Z.div_div by lia; reflexivity).
    assert (D3 : m / 3600000 = m / 60000 / 60) by (rewrite Z.div_div by lia; reflexivity).
    lia. }
  rewrite Hh, Hr. reflexivity.
Qed.

(** C1.  The claim asks for the hour field of 90000000 ms (25 hours) to be
    25.  The formatter reads the hour of the day off a [Date], so it prints
    01 and pushes the 24 missing hours into the milliseconds field, which
    then has eight digits. *)
Theorem formatTimestamp_25_hours :
  formatTimestamp (Num 90000000) = "01:00:00#86400000".
Proof. vm_compute. reflexivity. Qed.

(** C3.  The claim asks for the paired parser to give 90000000 back from the
    text formatted for 90000000 ms (25 hours).  The formatter prints the hour
    of the day and pushes the 24 missing hours into the last field, which
    then has eight digits where the format has three: the parser rejects the
    text. *)
Theorem parse_formatTimestamp_25_hours :
  formatTimestamp (Num 90000000) = "01:00:00#86400000"
  /\ parseTimestamp (formatTimestamp (Num 90000000)) = None.
Proof. split; vm_compute; reflexivity. Qed.

(** ** Dictionaries *)

Lemma get_set_eq {V : Type} (k : string) (v : V) (o : Obj.t V) :
  Obj.get k (Obj.set k v o) = Some v.
Proof.
  induction o as [|[k' v'] o IH]; simpl.
  - now rewrite String.eqb_refl.
  - destruct (String.eqb_spec k' k) as [->|Hne]; simpl.
    + now rewrite String.eqb_refl.
    + apply String.eqb_neq in Hne. now rewrite Hne.
Qed.

Lemma get_set_neq {V : Type} (k k' : string) (v : V) (o : Obj.t V) :
  k' <> k -> Obj.get k' (Obj.set k v o) = Obj.get k' o.
Proof.
  intros Hk. induction o as [|[k0 v0] o IH]; simpl.
  - destruct (String.eqb_spec k k'); [congruence | reflexivity].
  - destruct (String.eqb_spec k0 k) as [->|Hne]; simpl.
    + destruct (String.eqb_spec k k'); [congruence | reflexivity].
    + now rewrite IH.
Qed.

(** Assigning to a key that is present moves nothing. *)
Lemma keys_set_present {V : Type} (k : string) (v v0 : V) (o : Obj.t V) :
  Obj.get k o = Some v0 -> Obj.keys (Obj.set k v o) = Obj.keys o.
Proof.
  induction o as [|[k' v'] o IH]; simpl; [discriminate|].
  destruct (String.eqb_spec k' k) as [->|Hne]; simpl.
  - reflexivity.
  - intros H. f_equal. exact (IH H).
Qed.

Lemma get_in_values {V : Type} (k : string) (v : V) (o : Obj.t V) :
  Obj.get k o = Some v -> In v (Obj.values o).
Proof.
  induction o as [|[k' v'] o IH]; simpl; [discriminate|].
  destruct (String.eqb_spec k' k) as [->|Hne].
  - intros [= ->]. now left.
  - intros H. right. exact (IH H).
Qed.

(** ** Step start: the title *)

Lemma substring_prefix (n : nat) (s : string) :
  (n <= String.length s)%nat ->
  exists rest, s = substring 0 n s ++ rest /\ String.length (substring 0 n s) = n.
Proof.
  revert s. induction n as [|n IH]; intros s Hn.
  - exists s. destruct s; simpl; split; reflexivity.
  - destruct s as [|a s]; simpl in *; [lia|].
    destruct (IH s ltac:(lia)) as (rest & E & L).
    exists rest. split; [now rewrite <- E | now rewrite L].
Qed.

(** C5.  Step start stores, under the fresh identifier, a record whose title
    is "actor.name(args joined by comma)" when that string has at most 100
    characters, and otherwise exactly its first 100 characters followed by
    three dots. *)
Theorem stepStarted_title (now : Z) (uuid : string) (step : Step) (s : Session) :
  let full :=
    actor step ++ "." ++ name step ++ "("
      ++ match args step with Some a => String.concat "," a | None => "" end ++ ")" in
  exists r,
    Obj.get uuid (steps (fst (stepStarted now uuid step s))) = Some r
    /\ ((String.length full <= 100)%nat -> title r = full)
    /\ ((100 < String.length full)%nat ->
        exists first rest,
          full = first ++ rest /\ String.length first = 100%nat
          /\ title r = first ++ "...").
Proof.
  intros full. eexists. split; [apply get_set_eq|].
  cbn [title]. unfold stepTitle. cbn [actor name args]. fold full. unfold max_title.
  split; intros H.
  - destruct (Nat.ltb_spec 100 (String.length full)); [lia | reflexivity].
  - destruct (Nat.ltb_spec 100 (String.length full)); [|lia].
    destruct (substring_prefix 100 full ltac:(lia)) as (rest & E & L).
    exists (substring 0 100 full), rest. auto.
Qed.

(** ** Step finish *)

(** What step finish does, case by case, in any realm. *)
Lemma stepFinishedIn_cases realm now step s :
  stepFinishedIn realm now step s
  = Normal
      match step with
      | Some st =>
          match id st with
          | Some k =>
              if (k =? "")%string then (s, realm)
              else match lookup realm k (steps s) with
                   | Some target =>
                       if truthyFound (Some target)
                       then assignEnd k (formatTimestamp (elapsed now s)) target s realm
                       else (s, realm)
                   | None => (s, realm)
                   end
          | None => (s, realm)
          end
      | None => (s, realm)
      end.
Proof.
  destruct step as [st|]; [|reflexivity].
  unfold stepFinishedIn. cbn [isSome prop bind].
  destruct (id st) as [k|]; [|reflexivity]. cbn [truthy toPropertyKey].
  destruct (k =? "")%string; [reflexivity|]. cbn [negb].
  destruct (lookup realm k (steps s)) as [target|]; [|reflexivity].
  cbn [bind prop]. now destruct (truthyFound (Some target)).
Qed.

Lemma lookup_own realm k r o :
  Obj.get k o = Some r -> lookup realm k o = Some (OwnRecord r).
Proof. unfold lookup. now intros ->. Qed.

(** The session that step finish returns does not depend on the realm: only
    an own record is written to. *)
Lemma stepFinishedIn_session realm now step s :
  exists realm',
    stepFinishedIn realm now step s
    = Normal
        (match step with
         | Some st =>
             match id st with
             | Some k =>
                 if (k =? "")%string then s
                 else match Obj.get k (steps s) with
                      | Some r =>
                          mkSession
                            (Obj.set k (setEnd (formatTimestamp (elapsed now s)) r)
                               (steps s))
                            (testStartedAt s)
                      | None => s
                      end
             | None => s
             end
         | None => s
         end,
         realm').
Proof.
  rewrite stepFinishedIn_cases.
  destruct step as [st|]; [|eexists; reflexivity].
  destruct (id st) as [k|]; [|eexists; reflexivity].
  destruct (k =? "")%string; [eexists; reflexivity|].
  destruct (Obj.get k (steps s)) as [r|] eqn:Hk.
  - rewrite (lookup_own realm k r _ Hk). eexists; reflexivity.
  - unfold lookup. rewrite Hk.
    destruct (k =? "__proto__")%string; [eexists; reflexivity|].
    destruct (existsb (String.eqb k) prototypeMethods); [eexists; reflexivity|].
    destruct (k =? "end")%string; [|eexists; reflexivity].
    destruct (prototypeEnd realm) as [e|]; [|eexists; reflexivity].
    cbn [option_map truthyFound truthy assignEnd].
    destruct (negb (e =? "")%string); eexists; reflexivity.
Qed.

(** What step finish does to the session, case by case. *)
Lemma stepFinished_cases now step s :
  stepFinished now step s
  = Normal
      match step with
      | Some st =>
          match id st with
          | Some k =>
              if (k =? "")%string then s
              else match Obj.get k (steps s) with
                   | Some r =>
                       mkSession
                         (Obj.set k (setEnd (formatTimestamp (elapsed now s)) r) (steps s))
                         (testStartedAt s)
                   | None => s
                   end
          | None => s
          end
      | None => s
      end.
Proof.
  unfold stepFinished.
  destruct (stepFinishedIn_session pristine now step s) as [realm' ->]. reflexivity.
Qed.

Lemma stepFinished_absent now s : stepFinished now None s = Normal s.
Proof. now rewrite stepFinished_cases. Qed.

Lemma stepFinished_falsy_id now st s :
  truthy (id st) = false -> stepFinished now (Some st) s = Normal s.
Proof.
  intros H. rewrite stepFinished_cases. destruct (id st) as [k|]; [|reflexivity].
  simpl in H. apply negb_false_iff in H. now rewrite H.
Qed.

Lemma stepFinished_unknown now st k s :
  id st = Some k -> Obj.get k (steps s) = None ->
  stepFinished now (Some st) s = Normal s.
Proof.
  intros Hi Hk. rewrite stepFinished_cases, Hi, Hk. now destruct (k =? "")%string.
Qed.

Lemma stepFinished_known now st k r s :
  id st = Some k -> k <> "" -> Obj.get k (steps s) = Some r ->
  stepFinished now (Some st) s
  = Normal (mkSession
              (Obj.set k (setEnd (formatTimestamp (elapsed now s)) r) (steps s))
              (testStartedAt s)).
Proof.
  intros Hi Hne Hk. rewrite stepFinished_cases, Hi, Hk.
  apply String.eqb_neq in Hne. now rewrite Hne.
Qed.

Lemma stepFinished_total now step s :
  exists s', stepFinished now step s = Normal s'.
Proof.
  destruct step as [st|]; [|eexists; apply stepFinished_absent].
  destruct (id st) as [k|] eqn:Hi.
  - destruct (String.eqb_spec k "") as [->|Hne].
    + eexists. apply stepFinished_falsy_id. now rewrite Hi.
    + destruct (Obj.get k (steps s)) as [r|] eqn:Hk.
      * eexists. eapply stepFinished_known; eauto.
      * eexists. eapply stepFinished_unknown; eauto.
  - eexists. apply stepFinished_falsy_id. now rewrite Hi.
Qed.

(** Where step finish does what is expected of it, in any realm: it never
    throws; it leaves session and realm as they were when the payload is
    missing, when it has no identifier (or an empty one), and when [steps] has
    no property of that name, own or inherited; and when a record is stored
    under the identifier, it sets the end of that record and nothing else. *)
Lemma stepFinishedIn_spec (realm : Realm) (now : Z) (step : option Step) (s : Session) :
  (exists w, stepFinishedIn realm now step s = Normal w)
  /\ (step = None -> stepFinishedIn realm now step s = Normal (s, realm))
  /\ (forall st, step = Some st -> truthy (id st) = false ->
      stepFinishedIn realm now step s = Normal (s, realm))
  /\ (forall st k, step = Some st -> id st = Some k ->
      Obj.get k (steps s) = None -> k <> "__proto__" -> ~ In k prototypeMethods ->
      (k = "end" -> prototypeEnd realm = None) ->
      stepFinishedIn realm now step s = Normal (s, realm))
  /\ (forall st k r, step = Some st -> id st = Some k -> k <> "" ->
      Obj.get k (steps s) = Some r ->
      stepFinishedIn realm now step s
      = Normal (mkSession
                  (Obj.set k (setEnd (formatTimestamp (elapsed now s)) r) (steps s))
                  (testStartedAt s),
                realm)).
Proof.
  split; [rewrite stepFinishedIn_cases; eauto|].
  split; [now intros ->|].
  split.
  { intros st -> H. rewrite stepFinishedIn_cases.
    destruct (id st) as [k|]; [|reflexivity].
    simpl in H. apply negb_false_iff in H. now rewrite H. }
  split.
  { intros st k -> Hi Hk Hp Hm He. rewrite stepFinishedIn_cases, Hi.
    destruct (k =? "")%string; [reflexivity|].
    unfold lookup. rewrite Hk.
    apply String.eqb_neq in Hp. rewrite Hp.
    destruct (existsb (String.eqb k) prototypeMethods) eqn:E.
    - exfalso. apply Hm. apply existsb_exists in E as (x & Hx & Heq).
      apply String.eqb_eq in Heq. now subst.
    - destruct (String.eqb_spec k "end") as [->|]; [|reflexivity].
      now rewrite (He eq_refl). }
  intros st k r -> Hi Hne Hk. rewrite stepFinishedIn_cases, Hi.
  apply String.eqb_neq in Hne. rewrite Hne, (lookup_own realm k r _ Hk). reflexivity.
Qed.


(** ** Sorting by start instant *)

Lemma insert_perm (x : StepRecord) (l : list StepRecord) :
  Permutation (insert byStartedAt x l) (x :: l).
Proof.
  induction l as [|y l IH]; simpl; [reflexivity|].
  destruct (byStartedAt x y <=? 0); [reflexivity|].
  rewrite IH. apply perm_swap.
Qed.

Lemma sort_perm (l : list StepRecord) : Permutation (sort byStartedAt l) l.
Proof.
  induction l as [|x l IH]; simpl; [reflexivity|].
  rewrite insert_perm. now constructor.
Qed.

Lemma insert_sorted (x : StepRecord) (l : list StepRecord) :
  StronglySorted startOrder l -> StronglySorted startOrder (insert byStartedAt x l).
Proof.
  induction 1 as [|y l Hl IH Hy]; simpl.
  - repeat constructor.
  - destruct (Z.leb_spec (byStartedAt x y) 0) as [Hle|Hgt]; unfold byStartedAt in *.
    + constructor; [now constructor|].
      constructor; [unfold startOrder; lia|].
      eapply Forall_impl; [|exact Hy]. unfold startOrder. intros; lia.
    + constructor; [exact IH|].
      eapply Permutation_Forall; [symmetry; apply insert_perm|].
      constructor; [unfold startOrder; lia | exact Hy].
Qed.

Lemma sort_sorted (l : list StepRecord) : StronglySorted startOrder (sort byStartedAt l).
Proof.
  induction l as [|x l IH]; simpl; [constructor | now apply insert_sorted].
Qed.

Lemma insert_filter (t : Z) (x : StepRecord) (l : list StepRecord) :
  filter (sameStart t) (insert byStartedAt x l) = filter (sameStart t) (x :: l).
Proof.
  induction l as [|y l IH]; [reflexivity|].
  cbn [insert]. destruct (Z.leb_spec (byStartedAt x y) 0) as [Hle|Hgt]; [reflexivity|].
  cbn [filter] in *. rewrite IH. unfold sameStart, byStartedAt in *.
  destruct (Z.eqb_spec (startedAt y) t), (Z.eqb_spec (startedAt x) t);
    try reflexivity; lia.
Qed.

(** The sort is stable: the records of one start instant stay in the order
    they had. *)
Lemma sort_stable (t : Z) (l : list StepRecord) :
  filter (sameStart t) (sort byStartedAt l) = filter (sameStart t) l.
Proof.
  induction l as [|x l IH]; [reflexivity|].
  cbn [sort]. rewrite insert_filter. cbn [filter]. now rewrite IH.
Qed.

Lemma sorted_before (l1 l2 : list StepRecord) (x y : StepRecord) :
  StronglySorted startOrder (l1 ++ x :: l2)%list -> In y l1 -> startOrder y x.
Proof.
  induction l1 as [|z l1 IH]; simpl; [contradiction|].
  intros H [->|Hy]; inversion H as [|? ? Hs Hf]; subst.
  - rewrite Forall_forall in Hf. apply Hf, in_elt.
  - now apply IH.
Qed.

(** Of two records in a list, the one that started strictly earlier comes
    first once the list is sorted. *)
Lemma sort_splits (l : list StepRecord) (r1 r2 : StepRecord) :
  In r1 l -> In r2 l -> startedAt r1 < startedAt r2 ->
  exists l1 l2 l3, sort byStartedAt l = (l1 ++ r1 :: l2 ++ r2 :: l3)%list.
Proof.
  intros H1 H2 Hlt.
  pose proof (sort_sorted l) as Hs.
  apply (Permutation_in _ (Permutation_sym (sort_perm l))) in H1, H2.
  destruct (in_split _ _ H2) as (a & b & E).
  rewrite E in H1, Hs. apply in_app_or in H1 as [Ha|Hb].
  - destruct (in_split _ _ Ha) as (l1 & l2 & ->).
    exists l1, l2, b. rewrite E, <- app_assoc. reflexivity.
  - destruct Hb as [->|Hb]; [lia|].
    assert (Hsb : StronglySorted startOrder (r2 :: b)).
    { clear -Hs. induction a as [|z a IH]; [exact Hs|].
      inversion Hs; subst. now apply IH. }
    inversion Hsb as [|? ? _ Hf]; subst. rewrite Forall_forall in Hf.
    specialize (Hf r1 Hb). unfold startOrder in Hf. lia.
Qed.

(** ** Rendering *)

Lemma forEachIn_body realm sep l index subtitle :
  forEachIn realm sep l index subtitle = subtitle ++ bodyIn realm sep l index.
Proof.
  revert index subtitle. induction l as [|r l IH]; intros index subtitle; simpl.
  - now rewrite append_nil_r.
  - rewrite IH. destruct (endOf realm r) as [e|]; [|reflexivity].
    destruct (negb (e =? "")%string); [apply append_assoc | reflexivity].
Qed.

Lemma bodyIn_pristine sep l index : bodyIn pristine sep l index = body sep l index.
Proof.
  revert index. induction l as [|r l IH]; intros index; simpl; [reflexivity|].
  rewrite IH. unfold endOf. now destruct (end_ r).
Qed.

Lemma forEach_body sep l index subtitle :
  forEach sep l index subtitle = subtitle ++ body sep l index.
Proof. unfold forEach. now rewrite forEachIn_body, bodyIn_pristine. Qed.

Lemma body_app sep l1 l2 index :
  body sep (l1 ++ l2)%list index = body sep l1 index ++ body sep l2 (index + List.length l1).
Proof.
  revert index. induction l1 as [|r l1 IH]; intros index; simpl.
  - now rewrite Nat.add_0_r.
  - rewrite IH, append_assoc. now rewrite Nat.add_succ_r.
Qed.

Lemma body_finished sep r e l index :
  end_ r = Some e -> e <> "" ->
  body sep (r :: l) index = cue sep index r e ++ body sep l (S index).
Proof.
  intros He Hne. simpl. rewrite He. simpl.
  apply String.eqb_neq in Hne. now rewrite Hne.
Qed.

Lemma msIdentifier_webvtt config :
  format config = Some "WEBVTT" -> msIdentifier config = ".".
Proof. unfold msIdentifier, subtitleFormat. now intros ->. Qed.

Lemma msIdentifier_other config :
  format config <> Some "WEBVTT" -> msIdentifier config = ",".
Proof.
  unfold msIdentifier, subtitleFormat. intros H.
  destruct (format config) as [f|]; [|reflexivity].
  destruct (String.eqb_spec f "WEBVTT"); [congruence | reflexivity].
Qed.

Lemma renderIn_header_body realm config s :
  renderIn realm config s
  = header config
      ++ bodyIn realm (msIdentifier config) (sort byStartedAt (Obj.values (steps s))) 0.
Proof.
  unfold renderIn. rewrite forEachIn_body. f_equal.
  unfold header, subtitleFormat. destruct (format config) as [f|]; [|reflexivity].
  now destruct (f =? "WEBVTT")%string.
Qed.

Lemma render_header_body config s :
  render config s
  = header config
      ++ body (msIdentifier config) (sort byStartedAt (Obj.values (steps s))) 0.
Proof. unfold render. now rewrite renderIn_header_body, bodyIn_pristine. Qed.

(** C4.  Take two recorded, finished steps, the first started strictly before
    the second.  Whatever the session (so whatever the order in which the
    finish events came), the sorted list has the first before the second, and
    the document is: the header and the text of the steps sorted before the
    first; the cue of the first, that is its number, its time range and its
    title; the text of the steps between; the cue of the second; the text of
    the steps after.  Moreover the sort is stable: the records of one start
    instant keep the order of insertion. *)
Theorem cues_in_start_order (config : Config) (s : Session)
    (r1 r2 : StepRecord) (e1 e2 : string) :
  In r1 (Obj.values (steps s)) -> In r2 (Obj.values (steps s)) ->
  end_ r1 = Some e1 -> e1 <> "" -> end_ r2 = Some e2 -> e2 <> "" ->
  startedAt r1 < startedAt r2 ->
  let sep := msIdentifier config in
  (exists l1 l2 l3,
      sort byStartedAt (Obj.values (steps s)) = (l1 ++ r1 :: l2 ++ r2 :: l3)%list
      /\ let i := List.length l1 in
         let j := (i + 1 + List.length l2)%nat in
         render config s
         = (header config ++ body sep l1 0)
             ++ (toString (Num (Z.of_nat i + 1)) ++ LF
                   ++ replace "#" sep (start r1) ++ " --> " ++ replace "#" sep e1 ++ LF
                   ++ title r1 ++ LF ++ LF)
             ++ body sep l2 (S i)
             ++ (toString (Num (Z.of_nat j + 1)) ++ LF
                   ++ replace "#" sep (start r2) ++ " --> " ++ replace "#" sep e2 ++ LF
                   ++ title r2 ++ LF ++ LF)
             ++ body sep l3 (S j))
  /\ (forall t,
        filter (sameStart t) (sort byStartedAt (Obj.values (steps s)))
        = filter (sameStart t) (Obj.values (steps s))).
Proof.
  intros H1 H2 He1 Hn1 He2 Hn2 Hlt sep. split; [|intros t; apply sort_stable].
  destruct (sort_splits _ r1 r2 H1 H2 Hlt) as (l1 & l2 & l3 & E).
  exists l1, l2, l3. split; [exact E|]. cbv zeta.
  rewrite render_header_body, E. fold sep.
  rewrite body_app, (body_finished sep r1 e1 _ _ He1 Hn1).
  rewrite body_app, (body_finished sep r2 e2 _ _ He2 Hn2).
  unfold cue. rewrite !append_assoc. cbn [Nat.add].
  replace (List.length l1 + 1 + List.length l2)%nat
    with (S (List.length l1 + List.length l2)) by lia.
  reflexivity.
Qed.

Lemma cues_in_start_order_witness :
  In record_a (Obj.values (steps three_steps_final))
  /\ In record_c (Obj.values (steps three_steps_final))
  /\ end_ record_a = Some "00:00:02#500" /\ end_ record_c = Some "00:00:00#500"
  /\ startedAt record_a < startedAt record_c
  /\ render (mkConfig None) three_steps_final
     = ("1" ++ LF ++ "00:00:00,001 --> 00:00:02,500" ++ LF ++ "I.amOnPage(x,y)" ++ LF ++ LF)
         ++ ("3" ++ LF ++ "00:00:00,003 --> 00:00:00,500" ++ LF ++ "I.see(x,y)" ++ LF ++ LF).
Proof.
  assert (Ha : In record_a (Obj.values (steps three_steps_final))) by (simpl; auto).
  assert (Hc : In record_c (Obj.values (steps three_steps_final))) by (simpl; auto).
  assert (Hlt : startedAt record_a < startedAt record_c) by (simpl; lia).
  assert (Hna : "00:00:02#500" <> "") by discriminate.
  assert (Hnc : "00:00:00#500" <> "") by discriminate.
  split; [exact Ha|]. split; [exact Hc|]. split; [reflexivity|]. split; [reflexivity|].
  split; [exact Hlt|].
  destruct (cues_in_start_order (mkConfig None) three_steps_final record_a record_c
              "00:00:02#500" "00:00:00#500" Ha Hc eq_refl Hna eq_refl Hnc Hlt)
    as [(l1 & l2 & l3 & E & R) _].
  change (sort byStartedAt (Obj.values (steps three_steps_final)))
    with [record_a; record_b; record_c] in E.
  assert (L : l1 = [] /\ l2 = [record_b] /\ l3 = []).
  { destruct l1 as [|x l1]; simpl in E.
    - injection E as E. destruct l2 as [|y l2]; simpl in E; [discriminate|].
      injection E as <- E. destruct l2 as [|z l2]; simpl in E.
      + injection E as <-. auto.
      + injection E as _ E. destruct l2; discriminate.
    - injection E as _ E. destruct l1 as [|y l1]; simpl in E; [discriminate|].
      injection E as _ E. destruct l1 as [|z l1]; simpl in E; [discriminate|].
      injection E as _ E. destruct l1; discriminate. }
  destruct L as (-> & -> & ->). rewrite R. reflexivity.
Defined.

(** C2.  On the run of [three_steps] the second step never finishes.  The
    claim asks for the cues of the two finished steps to be numbered 1 and 2;
    the loop numbers a cue by the position of its step among all the sorted
    steps, finished or not, so the document numbers them 1 and 3. *)
Theorem cue_numbers_leave_a_gap :
  run three_steps initial = Normal three_steps_final
  /\ render (mkConfig None) three_steps_final
     = "1" ++ LF ++ "00:00:00,001 --> 00:00:02,500" ++ LF ++ "I.amOnPage(x,y)" ++ LF ++ LF
         ++ "3" ++ LF ++ "00:00:00,003 --> 00:00:00,500" ++ LF ++ "I.see(x,y)" ++ LF ++ LF.
Proof. split; vm_compute; reflexivity. Qed.

(** The number of a cue is the position of its step in the sorted list of
    all steps, whether the steps before it finished or not. *)
Lemma cue_number_is_position sep l1 r e l2 :
  end_ r = Some e -> e <> "" ->
  body sep (l1 ++ r :: l2)%list 0
  = body sep l1 0 ++ cue sep (List.length l1) r e ++ body sep l2 (S (List.length l1)).
Proof.
  intros He Hne. rewrite body_app. cbn [Nat.add].
  now rewrite (body_finished sep r e l2 _ He Hne).
Qed.


(** ** What the formatter prints *)

Lemma formatTimestamp_parts n : formatTimestamp n = clock n ++ "#" ++ millis n.
Proof. unfold formatTimestamp, clock, millis. cbv zeta. now rewrite !append_assoc. Qed.

Lemma lacks_hash_toString n : lacks "#" (toString n) = true.
Proof.
  destruct n as [z|]; [|reflexivity].
  assert (Hp : forall p, lacks "#" (NilZero.string_of_uint (Pos.to_uint p)) = true).
  { intros p. pose proof (DecimalPos.Unsigned.to_uint_nonnil p) as Hp.
    replace (NilZero.string_of_uint (Pos.to_uint p))
      with (NilEmpty.string_of_uint (Pos.to_uint p))
      by (unfold NilZero.string_of_uint; destruct (Pos.to_uint p); congruence).
    apply all_digits_lacks; [reflexivity | apply all_digits_uint]. }
  destruct z as [|p|p]; [reflexivity | apply Hp|].
  unfold toString. simpl. apply Hp.
Qed.

Lemma lacks_hash_padStart n s : lacks "#" s = true -> lacks "#" (padStart n "0" s) = true.
Proof.
  intros H. unfold padStart. rewrite lacks_append, H, andb_true_r.
  induction (n - String.length s)%nat; simpl; auto.
Qed.

Lemma lacks_hash_clock n : lacks "#" (clock n) = true.
Proof.
  unfold clock. cbv zeta.
  rewrite !lacks_append, !lacks_hash_padStart by apply lacks_hash_toString.
  reflexivity.
Qed.

(** Replacing the hash of a formatted timestamp puts the separator between
    the clock and the milliseconds. *)
Lemma replace_formatTimestamp sep n :
  replace "#" sep (formatTimestamp n) = clock n ++ sep ++ millis n.
Proof.
  rewrite formatTimestamp_parts.
  change (clock n ++ "#" ++ millis n) with (clock n ++ String "#" (millis n)).
  apply replace_append, lacks_hash_clock.
Qed.

(** ** Every record of a run is stamped by the formatter *)

Lemma Forall_values_set {V : Type} (P : V -> Prop) k v (o : Obj.t V) :
  P v -> Forall P (Obj.values o) -> Forall P (Obj.values (Obj.set k v o)).
Proof.
  intros Hv. induction o as [|[k' v'] o IH]; simpl; intros H.
  - now constructor.
  - inversion H; subst. destruct (k' =? k)%string; simpl; constructor; auto.
Qed.

Lemma handle_stamped ev s s' :
  Forall stamped (Obj.values (steps s)) -> handle ev s = Normal s' ->
  Forall stamped (Obj.values (steps s')).
Proof.
  intros Hs. destruct ev as [now|now uuid step|now step]; simpl.
  - intros [= <-]. constructor.
  - intros [= <-]. simpl. apply Forall_values_set; [|exact Hs].
    split; simpl; [eauto | discriminate].
  - destruct step as [st|]; [|now intros [= <-]].
    destruct (id st) as [k|] eqn:Hi;
      [|rewrite stepFinished_falsy_id by (now rewrite Hi); now intros [= <-]].
    destruct (String.eqb_spec k "") as [->|Hne];
      [rewrite stepFinished_falsy_id by (now rewrite Hi); now intros [= <-]|].
    destruct (Obj.get k (steps s)) as [r|] eqn:Hk.
    + rewrite (stepFinished_known now st k r s Hi Hne Hk). intros [= <-]. simpl.
      apply Forall_values_set; [|exact Hs].
      apply get_in_values in Hk. rewrite Forall_forall in Hs.
      destruct (Hs r Hk) as [Ha _]. split; simpl; [exact Ha|].
      intros e [= <-]. eauto.
    + rewrite (stepFinished_unknown now st k s Hi Hk). now intros [= <-].
Qed.

Lemma run_stamped evs s s' :
  Forall stamped (Obj.values (steps s)) -> run evs s = Normal s' ->
  Forall stamped (Obj.values (steps s')).
Proof.
  revert s. induction evs as [|ev evs IH]; intros s Hs; simpl.
  - now intros [= <-].
  - destruct (handle ev s) as [s1|e] eqn:E; simpl; [|discriminate].
    apply IH. eapply handle_stamped; eauto.
Qed.

(** No run throws. *)
Lemma run_total evs s : exists s', run evs s = Normal s'.
Proof.
  revert s. induction evs as [|ev evs IH]; intros s; simpl; [eauto|].
  assert (H : exists s1, handle ev s = Normal s1).
  { destruct ev; simpl; eauto. apply stepFinished_total. }
  destruct H as [s1 ->]. simpl. apply IH.
Qed.

(** C8.  In the session a run leaves behind, the document is: for the
    configuration value WEBVTT exactly, the line WEBVTT and a blank line
    followed by the cues written with a dot; for any other value and for no
    value, the cues alone, written with a comma.  In each cue the separator
    stands between the clock and the milliseconds of both offsets. *)
Theorem grammar_selection (config : Config) (evs : list Event) (s : Session) :
  run evs initial = Normal s ->
  let sorted := sort byStartedAt (Obj.values (steps s)) in
  (format config = Some "WEBVTT" ->
   render config s = "WEBVTT" ++ LF ++ LF ++ body "." sorted 0)
  /\ (format config <> Some "WEBVTT" -> render config s = body "," sorted 0)
  /\ (forall sep index r e,
        In r sorted -> end_ r = Some e ->
        exists a b,
          start r = formatTimestamp a /\ e = formatTimestamp b
          /\ cue sep index r e
             = toString (Num (Z.of_nat index + 1)) ++ LF
                 ++ (clock a ++ sep ++ millis a) ++ " --> "
                 ++ (clock b ++ sep ++ millis b) ++ LF
                 ++ title r ++ LF ++ LF).
Proof.
  intros Hrun sorted. split; [|split].
  - intros Hf. rewrite render_header_body, (msIdentifier_webvtt _ Hf).
    unfold header. rewrite Hf. simpl. reflexivity.
  - intros Hf. rewrite render_header_body, (msIdentifier_other _ Hf).
    unfold header. destruct (format config) as [f|]; [|reflexivity].
    destruct (String.eqb_spec f "WEBVTT"); [congruence | reflexivity].
  - intros sep index r e Hin He.
    assert (Hst : Forall stamped (Obj.values (steps s)))
      by (eapply run_stamped; [|exact Hrun]; constructor).
    apply (Permutation_in _ (sort_perm _)) in Hin.
    rewrite Forall_forall in Hst. destruct (Hst r Hin) as [[a Ha] Hb].
    destruct (Hb e He) as [b ->].
    exists a, b. split; [exact Ha|]. split; [reflexivity|].
    unfold cue. rewrite Ha, !replace_formatTimestamp, !append_assoc. reflexivity.
Qed.

Lemma grammar_selection_witness :
  run three_steps initial = Normal three_steps_final
  /\ render (mkConfig (Some "WEBVTT")) three_steps_final
     = "WEBVTT" ++ LF ++ LF
         ++ body "." (sort byStartedAt (Obj.values (steps three_steps_final))) 0.
Proof.
  assert (H : run three_steps initial = Normal three_steps_final) by reflexivity.
  split; [exact H|].
  exact (proj1 (grammar_selection (mkConfig (Some "WEBVTT")) three_steps
                  three_steps_final H) eq_refl).
Defined.

(** ** Test end *)

Section EmitterFacts.

Variable path_parse : string -> ParsedPath.

Lemma testAfterIn_no_video realm config test s fs :
  truthy (video_of test) = false ->
  testAfterIn path_parse realm config test s fs = Normal (fs, test).
Proof.
  unfold video_of, testAfterIn. destruct test as [[[a|]]|]; simpl; try reflexivity.
  now intros ->.
Qed.

Lemma testAfterIn_video realm config a video s fs :
  Obj.get "video" a = Some video -> video <> "" ->
  testAfterIn path_parse realm config (Some (mkTest (Some a))) s fs
  = (fs' <- writeFile (outputPath path_parse config video) (renderIn realm config s) fs ;;
     Normal (fs', Some (mkTest (Some (Obj.set "subtitle"
                                        (outputPath path_parse config video) a))))).
Proof.
  intros Hv Hne. unfold testAfterIn. simpl. rewrite Hv. simpl.
  apply String.eqb_neq in Hne. rewrite Hne. simpl.
  now destruct (writeFile _ _ fs).
Qed.

Lemma testAfter_no_video config test s fs :
  truthy (video_of test) = false ->
  testAfter path_parse config test s fs = Normal (fs, test).
Proof. apply testAfterIn_no_video. Qed.

Lemma testAfter_video config a video s fs :
  Obj.get "video" a = Some video -> video <> "" ->
  testAfter path_parse config (Some (mkTest (Some a))) s fs
  = (fs' <- writeFile (outputPath path_parse config video) (render config s) fs ;;
     Normal (fs', Some (mkTest (Some (Obj.set "subtitle"
                                        (outputPath path_parse config video) a))))).
Proof. apply testAfterIn_video. Qed.

Lemma video_of_some test video :
  video_of test = Some video ->
  exists a, test = Some (mkTest (Some a)) /\ Obj.get "video" a = Some video.
Proof.
  unfold video_of. destruct test as [[[a|]]|]; try discriminate. eauto.
Qed.

Lemma writeFile_rejected path data fs :
  In path (rejected fs) -> writeFile path data fs = Throw WriteError.
Proof.
  intros H. unfold writeFile.
  replace (existsb (String.eqb path) (rejected fs)) with true; [reflexivity|].
  symmetry. apply existsb_exists. exists path. split; [exact H | apply String.eqb_refl].
Qed.

Lemma writeFile_accepted path data fs :
  ~ In path (rejected fs) ->
  writeFile path data fs
  = Normal (mkFileSystem (Obj.set path data (files fs)) (rejected fs)).
Proof.
  intros H. unfold writeFile.
  destruct (existsb (String.eqb path) (rejected fs)) eqn:E; [|reflexivity].
  apply existsb_exists in E as (p & Hp & Heq). apply String.eqb_eq in Heq.
  subst. contradiction.
Qed.

Lemma subtitleFormat_webvtt config :
  format config = Some "WEBVTT" -> subtitleFormat config = "vtt".
Proof. unfold subtitleFormat. now intros ->. Qed.

Lemma subtitleFormat_other config :
  format config <> Some "WEBVTT" -> subtitleFormat config = "srt".
Proof.
  unfold subtitleFormat. intros H. destruct (format config) as [f|]; [|reflexivity].
  destruct (String.eqb_spec f "WEBVTT"); [congruence | reflexivity].
Qed.

(** C7.  Without a video entry (no test, no artifact map, no entry, or an
    empty one) the handler writes nothing and returns the test as it was, so
    a subtitle entry that was unset stays unset.  With a video entry the
    path is the directory of the video, a slash, its base name without
    extension, a dot and vtt (configuration value WEBVTT exactly) or srt
    (anything else); the document is written there, no other file changes,
    and the path is stored under the subtitle key of the same map, beside the
    video.  If the host rejects the write, the handler throws instead. *)
Theorem subtitle_written_iff_video (config : Config) (test : option Test)
    (s : Session) (fs : FileSystem) :
  (truthy (video_of test) = false ->
   testAfter path_parse config test s fs = Normal (fs, test))
  /\ (forall video, video_of test = Some video -> video <> "" ->
      exists ext,
        (format config = Some "WEBVTT" -> ext = "vtt")
        /\ (format config <> Some "WEBVTT" -> ext = "srt")
        /\ let path :=
             dir (path_parse video) ++ "/" ++ base_name (path_parse video) ++ "." ++ ext in
           (In path (rejected fs) ->
            testAfter path_parse config test s fs = Throw WriteError)
           /\ (~ In path (rejected fs) ->
               exists fs' a a',
                 test = Some (mkTest (Some a))
                 /\ testAfter path_parse config test s fs
                    = Normal (fs', Some (mkTest (Some a')))
                 /\ files fs' = Obj.set path (render config s) (files fs)
                 /\ Obj.get path (files fs') = Some (render config s)
                 /\ (forall p, p <> path -> Obj.get p (files fs') = Obj.get p (files fs))
                 /\ a' = Obj.set "subtitle" path a
                 /\ Obj.get "subtitle" a' = Some path
                 /\ Obj.get "video" a' = Some video)).
Proof.
  split; [apply testAfter_no_video|].
  intros video Hv Hne. destruct (video_of_some _ _ Hv) as (a & -> & Ha).
  exists (subtitleFormat config).
  split; [apply subtitleFormat_webvtt|]. split; [apply subtitleFormat_other|].
  cbv zeta. fold (outputPath path_parse config video).
  rewrite (testAfter_video config a video s fs Ha Hne). split.
  - intros Hr. now rewrite (writeFile_rejected _ _ _ Hr).
  - intros Hr. rewrite (writeFile_accepted _ _ _ Hr). simpl.
    eexists _, a, _. split; [reflexivity|]. split; [reflexivity|]. cbn [files].
    split; [reflexivity|]. split; [apply get_set_eq|].
    split; [intros p Hp; now apply get_set_neq|].
    split; [reflexivity|]. split; [apply get_set_eq|].
    rewrite get_set_neq by discriminate. exact Ha.
Qed.

Lemma body_unfinished sep l index :
  (forall r, In r l -> end_ r = None) -> body sep l index = "".
Proof.
  revert index. induction l as [|r l IH]; intros index H; simpl; [reflexivity|].
  rewrite (H r (or_introl eq_refl)). simpl. apply IH. intros r' Hr'. apply H. now right.
Qed.

(** C10.  With a video entry and no recorded step that has an end (there may
    be no step at all), on a host that accepts the write, the handler still
    writes the file, holding the line WEBVTT and a blank line for the
    configuration value WEBVTT and the empty string otherwise, and still
    stores its path under the subtitle key. *)
Theorem subtitle_without_finished_steps (config : Config) (test : option Test)
    (s : Session) (fs : FileSystem) (video : string) :
  video_of test = Some video -> video <> "" ->
  (forall r, In r (Obj.values (steps s)) -> end_ r = None) ->
  ~ In (outputPath path_parse config video) (rejected fs) ->
  exists fs' a',
    testAfter path_parse config test s fs = Normal (fs', Some (mkTest (Some a')))
    /\ (format config = Some "WEBVTT" ->
        Obj.get (outputPath path_parse config video) (files fs')
        = Some ("WEBVTT" ++ LF ++ LF))
    /\ (format config <> Some "WEBVTT" ->
        Obj.get (outputPath path_parse config video) (files fs') = Some "")
    /\ Obj.get "subtitle" a' = Some (outputPath path_parse config video).
Proof.
  intros Hv Hne Hnone Hr. destruct (video_of_some _ _ Hv) as (a & -> & Ha).
  rewrite (testAfter_video config a video s fs Ha Hne), (writeFile_accepted _ _ _ Hr).
  simpl. eexists _, _. split; [reflexivity|]. cbn [files].
  assert (Hdoc : render config s = header config).
  { rewrite render_header_body, body_unfinished; [apply append_nil_r|].
    intros r Hin. apply Hnone. now apply (Permutation_in _ (sort_perm _)). }
  rewrite get_set_eq, Hdoc. split; [|split; [|apply get_set_eq]].
  - intros Hf. unfold header. now rewrite Hf.
  - intros Hf. unfold header. destruct (format config) as [f|]; [|reflexivity].
    destruct (String.eqb_spec f "WEBVTT"); [congruence | reflexivity].
Qed.

End EmitterFacts.

Lemma subtitle_without_finished_steps_witness :
  video_of video_test = Some "/a/b/test.mp4"
  /\ "/a/b/test.mp4" <> ""
  /\ (forall r, In r (Obj.values (steps unfinished_session)) -> end_ r = None)
  /\ ~ In (outputPath SimplePath.parse (mkConfig None) "/a/b/test.mp4") (rejected empty_fs)
  /\ exists fs' a',
       testAfter SimplePath.parse (mkConfig None) video_test unfinished_session empty_fs
       = Normal (fs', Some (mkTest (Some a')))
       /\ Obj.get "/a/b/test.srt" (files fs') = Some ""
       /\ Obj.get "subtitle" a' = Some "/a/b/test.srt".
Proof.
  assert (Hv : video_of video_test = Some "/a/b/test.mp4") by reflexivity.
  assert (Hne : "/a/b/test.mp4" <> "") by discriminate.
  assert (Hnone : forall r, In r (Obj.values (steps unfinished_session)) -> end_ r = None).
  { simpl. intros r [<-|[<-|[]]]; reflexivity. }
  assert (Hr : ~ In (outputPath SimplePath.parse (mkConfig None) "/a/b/test.mp4")
                    (rejected empty_fs)) by (simpl; tauto).
  split; [exact Hv|]. split; [exact Hne|]. split; [exact Hnone|]. split; [exact Hr|].
  destruct (subtitle_without_finished_steps SimplePath.parse (mkConfig None) video_test
              unfinished_session empty_fs "/a/b/test.mp4" Hv Hne Hnone Hr)
    as (fs' & a' & E & _ & Hsrt & Hsub).
  exists fs', a'. split; [exact E|]. split; [|exact Hsub].
  apply Hsrt. discriminate.
Defined.

Lemma subtitle_written_iff_video_witness :
  video_of video_test = Some "/a/b/test.mp4"
  /\ "/a/b/test.mp4" <> ""
  /\ ~ In "/a/b/test.vtt" (rejected empty_fs)
  /\ exists fs' a',
       testAfter SimplePath.parse (mkConfig (Some "WEBVTT")) video_test
         three_steps_final empty_fs
       = Normal (fs', Some (mkTest (Some a')))
       /\ Obj.get "/a/b/test.vtt" (files fs')
          = Some (render (mkConfig (Some "WEBVTT")) three_steps_final)
       /\ Obj.get "subtitle" a' = Some "/a/b/test.vtt".
Proof.
  assert (Hv : video_of video_test = Some "/a/b/test.mp4") by reflexivity.
  assert (Hne : "/a/b/test.mp4" <> "") by discriminate.
  assert (Hr : ~ In "/a/b/test.vtt" (rejected empty_fs)) by (simpl; tauto).
  split; [exact Hv|]. split; [exact Hne|]. split; [exact Hr|].
  destruct (proj2 (subtitle_written_iff_video SimplePath.parse (mkConfig (Some "WEBVTT"))
                     video_test three_steps_final empty_fs) "/a/b/test.mp4" Hv Hne)
    as (ext & Hvtt & _ & H).
  rewrite (Hvtt eq_refl) in H. destruct H as [_ H].
  destruct (H Hr) as (fs' & a & a' & _ & E & _ & Hfile & _ & _ & Hsub & _).
  exists fs', a'. split; [exact E|]. split; [exact Hfile | exact Hsub].
Defined.

(** ** Test start *)

Lemma run_app evs1 evs2 s :
  run (evs1 ++ evs2)%list s = (s' <- run evs1 s ;; run evs2 s').
Proof.
  revert s. induction evs1 as [|ev evs1 IH]; intros s; simpl; [reflexivity|].
  destruct (handle ev s) as [s1|e]; simpl; [apply IH | reflexivity].
Qed.

(** A record present after an event was present before it under the same
    identifier, or the event is the start of a step with that identifier. *)
Lemma handle_origin ev s s' k r :
  handle ev s = Normal s' -> Obj.get k (steps s') = Some r ->
  (exists r0, Obj.get k (steps s) = Some r0)
  \/ (exists now st, ev = StepStarted now k st).
Proof.
  destruct ev as [now|now uuid step|now step]; simpl.
  - intros [= <-]. discriminate.
  - intros [= <-]. simpl. destruct (String.eqb_spec k uuid) as [->|Hne].
    + right. eauto.
    + rewrite get_set_neq by exact Hne. left. eauto.
  - intros Hf Hk. left.
    destruct step as [st|]; [|injection Hf as <-; eauto].
    destruct (id st) as [k0|] eqn:Hi;
      [|rewrite stepFinished_falsy_id in Hf by (now rewrite Hi);
        injection Hf as <-; eauto].
    destruct (String.eqb_spec k0 "") as [->|Hne];
      [rewrite stepFinished_falsy_id in Hf by (now rewrite Hi);
       injection Hf as <-; eauto|].
    destruct (Obj.get k0 (steps s)) as [r0|] eqn:Hk0.
    + rewrite (stepFinished_known now st k0 r0 s Hi Hne Hk0) in Hf.
      injection Hf as <-. simpl in Hk.
      destruct (String.eqb_spec k k0) as [->|Hkk]; [eauto|].
      rewrite get_set_neq in Hk by exact Hkk. eauto.
    + rewrite (stepFinished_unknown now st k0 s Hi Hk0) in Hf.
      injection Hf as <-. eauto.
Qed.

Lemma run_origin evs s s' k r :
  run evs s = Normal s' -> Obj.get k (steps s') = Some r ->
  (exists r0, Obj.get k (steps s) = Some r0)
  \/ (exists now st, In (StepStarted now k st) evs).
Proof.
  revert s. induction evs as [|ev evs IH]; intros s; simpl.
  - intros [= <-]. eauto.
  - destruct (handle ev s) as [s1|e] eqn:E; simpl; [|discriminate].
    intros Hrun Hk. destruct (IH s1 Hrun Hk) as [[r1 Hr1]|(now & st & Hin)].
    + destruct (handle_origin ev s s1 k r1 E Hr1) as [Hold|(now & st & ->)]; eauto.
    + eauto.
Qed.

(** C9.  Test start returns the session with no step and with the current
    instant as time base, whatever the session was.  So a run that contains
    a test start ends in the session that the events after it produce from
    that fresh session alone, nothing of the events before it or of the
    session before them shows (the document rendered is the same), and every
    record it holds was stored by a step start that came after. *)
Theorem no_carry_over (pre post : list Event) (now : Z) (s0 : Session) :
  steps (testBefore now s0) = Obj.empty
  /\ testStartedAt (testBefore now s0) = Some now
  /\ exists s,
       run (pre ++ TestBefore now :: post)%list s0 = Normal s
       /\ run post (mkSession Obj.empty (Some now)) = Normal s
       /\ (forall pre' s0', run (pre' ++ TestBefore now :: post)%list s0' = Normal s)
       /\ (forall k r, Obj.get k (steps s) = Some r ->
           exists t st, In (StepStarted t k st) post).
Proof.
  split; [reflexivity|]. split; [reflexivity|].
  destruct (run_total post (mkSession Obj.empty (Some now))) as [s Hs].
  assert (H : forall pre' s0', run (pre' ++ TestBefore now :: post)%list s0' = Normal s).
  { intros pre' s0'. rewrite run_app.
    destruct (run_total pre' s0') as [s1 ->]. simpl. exact Hs. }
  exists s. split; [apply H|]. split; [exact Hs|]. split; [exact H|].
  intros k r Hk. destruct (run_origin post _ s k r Hs Hk) as [[r0 Hr0]|Hev].
  - discriminate.
  - exact Hev.
Qed.

(** ** The theorems at work on the examples *)

Lemma stepStarted_title_witness :
  (100 < String.length
           ("I" ++ "." ++ "fillField" ++ "("
              ++ String.concat "," ["#search"; repeat_char "a" 50; repeat_char "b" 42]
              ++ ")"))%nat
  /\ exists r,
       Obj.get "id-z" (steps (fst (stepStarted 1004 "id-z" long_step three_steps_final)))
       = Some r
       /\ String.length (title r) = 103%nat.
Proof.
  assert (H : (100 < String.length
                       ("I" ++ "." ++ "fillField" ++ "("
                          ++ String.concat ","
                               ["#search"; repeat_char "a" 50; repeat_char "b" 42]
                          ++ ")"))%nat) by (vm_compute; lia).
  split; [exact H|].
  destruct (stepStarted_title 1004 "id-z" long_step three_steps_final)
    as (r & Hr & _ & Hlong).
  exists r. split; [exact Hr|].
  destruct (Hlong H) as (first & rest & _ & Hlen & ->).
  rewrite length_append, Hlen. reflexivity.
Defined.

(** * Further properties of the plugin *)

(** ** The formatter *)

Lemma millis_of_days m : millis_of m = 86400000 * (m / 86400000) + m mod 1000.
Proof.
  unfold millis_of, hours_of, minutes_of, seconds_of.
  pose proof (Z.div_mod m 1000 ltac:(lia)) as E1.
  pose proof (Z.div_mod (m / 1000) 60 ltac:(lia)) as E2.
  pose proof (Z.div_mod (m / 60000) 60 ltac:(lia)) as E3.
  pose proof (Z.div_mod (m / 3600000) 24 ltac:(lia)) as E4.
  assert (D2 : m / 60000 = m / 1000 / 60) by (rewrite Z.div_div by lia; reflexivity).
  assert (D3 : m / 3600000 = m / 60000 / 60) by (rewrite Z.div_div by lia; reflexivity).
  assert (D4 : m / 86400000 = m / 3600000 / 24) by (rewrite Z.div_div by lia; reflexivity).
  lia.
Qed.

(** X1.  On any host, take an argument [m], the local time it stands for
    (1899-12-31T00:00 plus [m] ms) and the time value the host's zone gives
    that local time.  If the time value is in the range of [Date] and the
    zone gives it the same offset back (the local time is not in a gap of the
    zone), the formatter prints the hour of the day, the minute and the
    second, and in the last field the milliseconds plus 86400000 for every
    whole day of the argument; that field is negative as soon as the
    argument is. *)
Theorem formatTimestamp_days_in_millis (host : Host) (m : Z) :
  let local := m - 25568 * 86400000 in
  Z.abs (local - offsetAtLocal host local) <= 8640000000000000 ->
  offsetAtUTC host (local - offsetAtLocal host local) = offsetAtLocal host local ->
  formatTimestampOn host (Num m)
  = padStart 2 "0" (toString (Num ((m / 3600000) mod 24))) ++ ":"
      ++ padStart 2 "0" (toString (Num ((m / 60000) mod 60))) ++ ":"
      ++ padStart 2 "0" (toString (Num ((m / 1000) mod 60))) ++ "#"
      ++ padStart 3 "0" (toString (Num (86400000 * (m / 86400000) + m mod 1000)))
  /\ (m < 0 -> 86400000 * (m / 86400000) + m mod 1000 < 0).
Proof.
  intros local Hv Hz. split.
  - rewrite (formatTimestampOn_valid host m Hv Hz), millis_of_days. reflexivity.
  - intros Hneg.
    assert (m / 86400000 < 0) by (apply Z.div_lt_upper_bound; lia).
    pose proof (Z.mod_pos_bound m 1000 ltac:(lia)). lia.
Qed.

Lemma formatTimestamp_days_in_millis_witness :
  Z.abs (-1 - 25568 * 86400000 - offsetAtLocal five_hours_west (-1 - 25568 * 86400000))
  <= 8640000000000000
  /\ offsetAtUTC five_hours_west
       (-1 - 25568 * 86400000 - offsetAtLocal five_hours_west (-1 - 25568 * 86400000))
     = offsetAtLocal five_hours_west (-1 - 25568 * 86400000)
  /\ formatTimestampOn five_hours_west (Num (-1)) = "23:59:59#-86399001".
Proof.
  assert (Hv : Z.abs (-1 - 25568 * 86400000
                      - offsetAtLocal five_hours_west (-1 - 25568 * 86400000))
               <= 8640000000000000) by (simpl; lia).
  assert (Hz : offsetAtUTC five_hours_west
                 (-1 - 25568 * 86400000
                  - offsetAtLocal five_hours_west (-1 - 25568 * 86400000))
               = offsetAtLocal five_hours_west (-1 - 25568 * 86400000)) by reflexivity.
  split; [exact Hv|]. split; [exact Hz|].
  rewrite (proj1 (formatTimestamp_days_in_millis five_hours_west (-1) Hv Hz)).
  vm_compute. reflexivity.
Defined.

Lemma fits_width_length w n z :
  fits_width w n = true -> 0 <= z < Z.of_nat n ->
  String.length (padStart w "0" (toString (Num z))) = w.
Proof.
  intros Hfit Hz. unfold fits_width in Hfit. rewrite forallb_forall in Hfit.
  specialize (Hfit (Z.to_nat z)). rewrite Z2Nat.id in Hfit by lia.
  apply Nat.eqb_eq, Hfit, in_seq. lia.
Qed.

(** Below 24 hours the paired parser gives the argument back. *)
Lemma parse_formatTimestamp_within_a_day m :
  0 <= m < 86400000 -> parseTimestamp (formatTimestamp (Num m)) = Some m.
Proof.
  intros Hm. rewrite (formatTimestamp_within_a_day m Hm).
  assert (Hh : 0 <= m / 3600000 < 100).
  { split; [apply Z.div_pos; lia | apply Z.div_lt_upper_bound; lia]. }
  pose proof (Z.mod_pos_bound (m / 60000) 60 ltac:(lia)) as Hmi.
  pose proof (Z.mod_pos_bound (m / 1000) 60 ltac:(lia)) as Hs.
  pose proof (Z.mod_pos_bound m 1000 ltac:(lia)) as Hms.
  assert (W2 : fits_width 2 100 = true) by (vm_compute; reflexivity).
  assert (W3 : fits_width 3 1000 = true) by (vm_compute; reflexivity).
  assert (Hc : is_digit ":" = false) by reflexivity.
  assert (Hx : is_digit "#" = false) by reflexivity.
  unfold parseTimestamp.
  change (?a ++ ":" ++ ?b)%string with (a ++ String ":" b)%string.
  rewrite split_first_append
    by (apply all_digits_lacks; [exact Hc | apply padded_digits; lia]).
  change (?a ++ ":" ++ ?b)%string with (a ++ String ":" b)%string.
  rewrite split_first_append
    by (apply all_digits_lacks; [exact Hc | apply padded_digits; lia]).
  change (?a ++ "#" ++ ?b)%string with (a ++ String "#" b)%string.
  rewrite split_first_append
    by (apply all_digits_lacks; [exact Hx | apply padded_digits; lia]).
  unfold parse_width.
  rewrite !(fits_width_length 2 100) by (try exact W2; simpl; lia).
  rewrite (fits_width_length 3 1000) by (try exact W3; simpl; lia).
  cbn [Nat.leb Nat.eqb]. rewrite !parse_field_padded by lia. f_equal.
  pose proof (Z.div_mod m 1000 ltac:(lia)) as E1.
  pose proof (Z.div_mod (m / 1000) 60 ltac:(lia)) as E2.
  pose proof (Z.div_mod (m / 60000) 60 ltac:(lia)) as E3.
  assert (D2 : m / 60000 = m / 1000 / 60) by (rewrite Z.div_div by lia; reflexivity).
  assert (D3 : m / 3600000 = m / 60000 / 60) by (rewrite Z.div_div by lia; reflexivity).
  lia.
Qed.

Lemma uint_of_string_digits s d :
  NilEmpty.uint_of_string s = Some d -> Decimal.nb_digits d = String.length s.
Proof.
  revert d. induction s as [|a s IH]; simpl; intros d.
  - now intros [= <-].
  - destruct (NilEmpty.uint_of_string s) as [d'|]; [|discriminate].
    intros H. apply uint_of_char_spec in H. specialize (IH d' eq_refl).
    intuition subst; simpl; now rewrite IH.
Qed.

Lemma three_digits_below_1000 (d : Decimal.uint) :
  Decimal.nb_digits d = 3%nat -> Z.of_uint d < 1000.
Proof.
  destruct d as [|d|d|d|d|d|d|d|d|d|d]; try discriminate;
    (destruct d as [|d|d|d|d|d|d|d|d|d|d]; try discriminate;
     (destruct d as [|d|d|d|d|d|d|d|d|d|d]; try discriminate;
      (destruct d; try discriminate; intros _; vm_compute; reflexivity))).
Qed.

Lemma parse_width_three s v : parse_width false 3 s = Some v -> v < 1000.
Proof.
  unfold parse_width, parse_field.
  destruct (Nat.eqb_spec (String.length s) 3) as [L|]; [|discriminate].
  destruct s as [|a s]; [discriminate|]. unfold NilZero.uint_of_string.
  destruct (NilEmpty.uint_of_string (String a s)) as [d|] eqn:E; [|discriminate].
  intros [= <-]. apply three_digits_below_1000.
  now rewrite (uint_of_string_digits _ _ E).
Qed.

Lemma parse_width_three_overflow z :
  1000 <= z -> parse_width false 3 (padStart 3 "0" (toString (Num z))) = None.
Proof.
  intros Hz.
  destruct (parse_width false 3 (padStart 3 "0" (toString (Num z)))) as [v|] eqn:E;
    [|reflexivity].
  pose proof (parse_width_three _ _ E) as Hv. unfold parse_width in E.
  destruct (String.length (padStart 3 "0" (toString (Num z))) =? 3)%nat;
    [|discriminate].
  rewrite parse_field_padded in E by lia. injection E as <-. lia.
Qed.

(** From 24 hours on, as far as the date is valid, the paired parser rejects
    the formatted text. *)
Lemma parse_formatTimestamp_from_a_day_on m :
  86400000 <= m <= max_timestamp -> parseTimestamp (formatTimestamp (Num m)) = None.
Proof.
  intros Hm. rewrite formatTimestamp_valid by (unfold max_timestamp in *; lia).
  destruct (fields_nonneg m ltac:(lia)) as (Hh & Hmi & Hs & Hms).
  assert (Hc : is_digit ":" = false) by reflexivity.
  assert (Hx : is_digit "#" = false) by reflexivity.
  unfold parseTimestamp.
  change (?a ++ ":" ++ ?b)%string with (a ++ String ":" b)%string.
  rewrite split_first_append
    by (apply all_digits_lacks; [exact Hc | apply padded_digits; lia]).
  change (?a ++ ":" ++ ?b)%string with (a ++ String ":" b)%string.
  rewrite split_first_append
    by (apply all_digits_lacks; [exact Hc | apply padded_digits; lia]).
  change (?a ++ "#" ++ ?b)%string with (a ++ String "#" b)%string.
  rewrite split_first_append
    by (apply all_digits_lacks; [exact Hx | apply padded_digits; lia]).
  rewrite (parse_width_three_overflow (millis_of m)).
  - repeat match goal with
           | |- context [match parse_width ?b ?w ?x with _ => _ end] =>
               destruct (parse_width b w x)
           end; reflexivity.
  - rewrite millis_of_days.
    assert (1 <= m / 86400000) by (apply Z.div_le_lower_bound; lia).
    pose proof (Z.mod_pos_bound m 1000 ltac:(lia)). lia.
Qed.

(** X2.  Below 24 hours the formatted text is a subtitle timestamp of fixed
    shape: the hours, the minutes, the seconds and the milliseconds of the
    argument, as two, two, two and three decimal digits, with colons and the
    hash between them. *)
Theorem formatTimestamp_fixed_width m :
  0 <= m < 86400000 ->
  let hh := padStart 2 "0" (toString (Num (m / 3600000))) in
  let mm := padStart 2 "0" (toString (Num ((m / 60000) mod 60))) in
  let ss := padStart 2 "0" (toString (Num ((m / 1000) mod 60))) in
  let mmm := padStart 3 "0" (toString (Num (m mod 1000))) in
  formatTimestamp (Num m) = hh ++ ":" ++ mm ++ ":" ++ ss ++ "#" ++ mmm
  /\ String.length hh = 2%nat /\ String.length mm = 2%nat
  /\ String.length ss = 2%nat /\ String.length mmm = 3%nat
  /\ all_digits hh = true /\ all_digits mm = true
  /\ all_digits ss = true /\ all_digits mmm = true.
Proof.
  intros Hm hh mm ss mmm. split; [now apply formatTimestamp_within_a_day|].
  assert (Hh : 0 <= m / 3600000 < 100).
  { split; [apply Z.div_pos; lia | apply Z.div_lt_upper_bound; lia]. }
  pose proof (Z.mod_pos_bound (m / 60000) 60 ltac:(lia)) as Hmi.
  pose proof (Z.mod_pos_bound (m / 1000) 60 ltac:(lia)) as Hs.
  pose proof (Z.mod_pos_bound m 1000 ltac:(lia)) as Hms.
  assert (W2 : fits_width 2 100 = true) by (vm_compute; reflexivity).
  assert (W3 : fits_width 3 1000 = true) by (vm_compute; reflexivity).
  subst hh mm ss mmm.
  rewrite !(fits_width_length 2 100) by (try exact W2; simpl; lia).
  rewrite (fits_width_length 3 1000) by (try exact W3; simpl; lia).
  rewrite !padded_digits by lia. repeat split; reflexivity.
Qed.

Lemma formatTimestamp_fixed_width_witness :
  0 <= 3661005 < 86400000
  /\ formatTimestamp (Num 3661005) = "01:01:01#005".
Proof.
  assert (H : 0 <= 3661005 < 86400000) by lia.
  split; [exact H|].
  rewrite (proj1 (formatTimestamp_fixed_width 3661005 H)). vm_compute. reflexivity.
Defined.

(** ** Step start and step finish *)

Lemma set_absent {V : Type} (k : string) (v : V) (o : Obj.t V) :
  Obj.get k o = None -> Obj.set k v o = (o ++ [(k, v)])%list.
Proof.
  induction o as [|[k' v'] o IH]; simpl; [reflexivity|].
  destruct (k' =? k)%string; [discriminate|]. intros H. now rewrite (IH H).
Qed.

Lemma set_set {V : Type} (k : string) (v1 v2 : V) (o : Obj.t V) :
  Obj.set k v2 (Obj.set k v1 o) = Obj.set k v2 o.
Proof.
  induction o as [|[k' v'] o IH]; simpl.
  - now rewrite String.eqb_refl.
  - destruct (k' =? k)%string eqn:E; simpl.
    + now rewrite String.eqb_refl.
    + now rewrite E, IH.
Qed.

Lemma set_comm_present {V : Type} (k1 k2 : string) (v1 v2 w1 w2 : V) (o : Obj.t V) :
  k1 <> k2 -> Obj.get k1 o = Some w1 -> Obj.get k2 o = Some w2 ->
  Obj.set k1 v1 (Obj.set k2 v2 o) = Obj.set k2 v2 (Obj.set k1 v1 o).
Proof.
  intros Hne. induction o as [|[k v] o IH]; simpl; [discriminate|].
  assert (N12 : (k1 =? k2)%string = false) by now apply String.eqb_neq.
  assert (N21 : (k2 =? k1)%string = false) by (apply String.eqb_neq; congruence).
  destruct (k =? k1)%string eqn:E1, (k =? k2)%string eqn:E2; simpl;
    rewrite ?E1, ?E2, ?N12, ?N21.
  - apply String.eqb_eq in E1, E2. congruence.
  - reflexivity.
  - reflexivity.
  - intros G1 G2. now rewrite (IH G1 G2).
Qed.


(** X3.  After step events that no test start precedes, the time base is
    still undefined, and every offset recorded, start or end, is the text
    NaN:NaN:NaN#NaN. *)
Theorem offsets_before_first_test_start (evs : list Event) (s : Session) :
  (forall now, ~ In (TestBefore now) evs) ->
  run evs initial = Normal s ->
  testStartedAt s = None
  /\ forall r, In r (Obj.values (steps s)) ->
       start r = "NaN:NaN:NaN#NaN"
       /\ forall e, end_ r = Some e -> e = "NaN:NaN:NaN#NaN".
Proof.
  intros Hno Hrun.
  assert (G : forall evs s0 s1,
             (forall now, ~ In (TestBefore now) evs) ->
             testStartedAt s0 = None -> Forall nan_stamped (Obj.values (steps s0)) ->
             run evs s0 = Normal s1 ->
             testStartedAt s1 = None /\ Forall nan_stamped (Obj.values (steps s1))).
  { clear. induction evs as [|ev evs IH]; intros s0 s1 Hno Ht Hf; simpl.
    - intros [= <-]. auto.
    - assert (Hno' : forall now, ~ In (TestBefore now) evs)
        by (intros now Hin; apply (Hno now); now right).
      destruct ev as [now|now uuid step|now step]; simpl.
      + exfalso. apply (Hno now). now left.
      + apply IH; [exact Hno' | exact Ht|]. simpl.
        apply Forall_values_set; [|exact Hf].
        unfold elapsed. rewrite Ht. split; [reflexivity | discriminate].
      + rewrite stepFinished_cases. simpl. apply IH; [exact Hno'| |].
        * destruct step as [st|]; [|exact Ht]. destruct (id st) as [k|]; [|exact Ht].
          destruct (k =? "")%string; [exact Ht|].
          now destruct (Obj.get k (steps s0)).
        * destruct step as [st|]; [|exact Hf]. destruct (id st) as [k|]; [|exact Hf].
          destruct (k =? "")%string; [exact Hf|].
          destruct (Obj.get k (steps s0)) as [r|] eqn:Hk; [|exact Hf]. simpl.
          apply Forall_values_set; [|exact Hf].
          apply get_in_values in Hk. rewrite Forall_forall in Hf.
          destruct (Hf r Hk) as [Hs _]. unfold elapsed. rewrite Ht.
          split; [exact Hs|]. now intros e [= <-]. }
  destruct (G evs initial s Hno eq_refl (Forall_nil _) Hrun) as [Ht Hf].
  split; [exact Ht|]. intros r Hr. rewrite Forall_forall in Hf. exact (Hf r Hr).
Qed.

Lemma offsets_before_first_test_start_witness :
  (forall now, ~ In (TestBefore now) orphan_steps)
  /\ exists s,
       run orphan_steps initial = Normal s
       /\ forall r, In r (Obj.values (steps s)) -> start r = "NaN:NaN:NaN#NaN".
Proof.
  assert (Hno : forall now, ~ In (TestBefore now) orphan_steps).
  { intros now [H|[H|[]]]; discriminate. }
  split; [exact Hno|].
  destruct (run_total orphan_steps initial) as [s Hs]. exists s. split; [exact Hs|].
  intros r Hr.
  exact (proj1 (proj2 (offsets_before_first_test_start orphan_steps s Hno Hs) r Hr)).
Defined.

(** X4.  The identifier that step start attaches to the payload is the one
    step finish looks up: finishing with the payload that step start returned
    completes the record just stored, which then has the start offset, the
    start instant and the title of the start and the end offset of the
    finish. *)
Theorem start_then_finish (now now' : Z) (uuid : string) (step : Step) (s : Session) :
  uuid <> "" ->
  let s1 := fst (stepStarted now uuid step s) in
  let step' := snd (stepStarted now uuid step s) in
  id step' = Some uuid
  /\ exists s2,
       stepFinished now' (Some step') s1 = Normal s2
       /\ Obj.get uuid (steps s2)
          = Some (mkStepRecord (formatTimestamp (elapsed now s)) now (stepTitle step)
                    (Some (formatTimestamp (elapsed now' s))))
       /\ (forall k, k <> uuid -> Obj.get k (steps s2) = Obj.get k (steps s))
       /\ testStartedAt s2 = testStartedAt s.
Proof.
  intros Hne s1 step'. split; [reflexivity|].
  rewrite stepFinished_cases. eexists. split; [reflexivity|].
  subst s1 step'. cbn [stepStarted fst snd id steps].
  apply String.eqb_neq in Hne. rewrite Hne, get_set_eq.
  cbn [steps testStartedAt]. rewrite set_set. split; [|split].
  - rewrite get_set_eq. reflexivity.
  - intros k Hk. now rewrite get_set_neq.
  - reflexivity.
Qed.

Lemma start_then_finish_witness :
  "id-z" <> ""
  /\ exists s2,
       stepFinished 5000
         (Some (snd (stepStarted 4000 "id-z" long_step three_steps_final)))
         (fst (stepStarted 4000 "id-z" long_step three_steps_final))
       = Normal s2
       /\ testStartedAt s2 = Some 1000.
Proof.
  assert (H : "id-z" <> "") by discriminate.
  split; [exact H|].
  destruct (start_then_finish 4000 5000 "id-z" long_step three_steps_final H)
    as (_ & s2 & E & _ & _ & Ht).
  exists s2. split; [exact E | exact Ht].
Defined.

(** X5.  Step start under an identifier not yet in use adds its record after
    all the others and touches neither them nor the time base; the record has
    no end. *)
Theorem stepStarted_appends (now : Z) (uuid : string) (step : Step) (s : Session) :
  Obj.get uuid (steps s) = None ->
  steps (fst (stepStarted now uuid step s))
  = (steps s
       ++ [(uuid, mkStepRecord (formatTimestamp (elapsed now s)) now (stepTitle step) None)])%list
  /\ testStartedAt (fst (stepStarted now uuid step s)) = testStartedAt s.
Proof.
  intros H. split; [|reflexivity]. cbn [stepStarted fst steps].
  now rewrite (set_absent _ _ _ H).
Qed.

Lemma stepStarted_appends_witness :
  Obj.get "id-z" (steps three_steps_final) = None
  /\ Obj.keys (steps (fst (stepStarted 4000 "id-z" long_step three_steps_final)))
     = ["id-a"; "id-b"; "id-c"; "id-z"].
Proof.
  assert (H : Obj.get "id-z" (steps three_steps_final) = None) by reflexivity.
  split; [exact H|].
  rewrite (proj1 (stepStarted_appends 4000 "id-z" long_step three_steps_final H)).
  reflexivity.
Defined.

Lemma substring_length_le (n : nat) (s : string) :
  (String.length (substring 0 n s) <= n)%nat.
Proof.
  revert s. induction n as [|n IH]; intros s.
  - destruct s; simpl; lia.
  - destruct s as [|a s]; simpl; [lia|]. specialize (IH s). lia.
Qed.

(** X6.  A stored title never has more than 103 characters. *)
Theorem stepTitle_length (step : Step) : (String.length (stepTitle step) <= 103)%nat.
Proof.
  unfold stepTitle, max_title.
  set (full := actor step ++ "." ++ name step ++ "("
         ++ match args step with Some a => String.concat "," a | None => "" end ++ ")").
  destruct (Nat.ltb_spec 100 (String.length full)) as [H|H]; [|lia].
  rewrite length_append. pose proof (substring_length_le 100 full). simpl. lia.
Qed.

(** X7.  Finishing a step again overwrites its end: two finish events for
    the same payload leave the session that the second alone would leave. *)
Theorem second_finish_wins (now1 now2 : Z) (step : option Step) (s : Session) :
  (s1 <- stepFinished now1 step s ;; stepFinished now2 step s1)
  = stepFinished now2 step s.
Proof.
  rewrite (stepFinished_cases now1). cbn [bind]. rewrite !stepFinished_cases. f_equal.
  destruct step as [st|]; [|reflexivity]. destruct (id st) as [k|]; [|reflexivity].
  destruct (k =? "")%string; [reflexivity|].
  destruct (Obj.get k (steps s)) as [r|] eqn:Hk; [|now rewrite Hk].
  cbn [steps testStartedAt]. rewrite get_set_eq, set_set. reflexivity.
Qed.

(** X8.  Finish events for different identifiers commute: whichever of the
    two arrives first, each carrying its own instant, the session afterwards
    is the same. *)
Theorem finishes_commute (now1 now2 : Z) (st1 st2 : Step) (s : Session) :
  id st1 <> id st2 ->
  run [StepFinished now1 (Some st1); StepFinished now2 (Some st2)] s
  = run [StepFinished now2 (Some st2); StepFinished now1 (Some st1)] s.
Proof.
  intros Hne. cbn [run handle].
  rewrite (stepFinished_cases now1 (Some st1) s), (stepFinished_cases now2 (Some st2) s).
  cbn [bind]. rewrite !stepFinished_cases. cbn [bind]. f_equal.
  destruct (id st1) as [k1|], (id st2) as [k2|]; try reflexivity.
  assert (Hk : k1 <> k2) by congruence.
  destruct (k1 =? "")%string eqn:E1; [reflexivity|].
  destruct (k2 =? "")%string eqn:E2; [reflexivity|].
  destruct (Obj.get k1 (steps s)) as [r1|] eqn:H1;
    destruct (Obj.get k2 (steps s)) as [r2|] eqn:H2;
    cbn [steps testStartedAt]; rewrite ?get_set_neq by congruence;
    rewrite ?H1, ?H2; try reflexivity.
  unfold elapsed. cbn [testStartedAt]. f_equal.
  symmetry. eapply set_comm_present; eauto.
Qed.

Lemma finishes_commute_witness :
  id (plainStep "I" "click" (Some "id-b")) <> id (plainStep "I" "see" (Some "id-c"))
  /\ run [StepFinished 4000 (Some (plainStep "I" "click" (Some "id-b")));
          StepFinished 4100 (Some (plainStep "I" "see" (Some "id-c")))] three_steps_final
     = run [StepFinished 4100 (Some (plainStep "I" "see" (Some "id-c")));
            StepFinished 4000 (Some (plainStep "I" "click" (Some "id-b")))]
         three_steps_final.
Proof.
  assert (H : id (plainStep "I" "click" (Some "id-b"))
              <> id (plainStep "I" "see" (Some "id-c"))) by discriminate.
  split; [exact H|].
  exact (finishes_commute 4000 4100 _ _ three_steps_final H).
Defined.


(** ** Sorting and rendering *)

(** X10.  The list the cues are made from holds exactly the recorded steps,
    each as often as it is recorded, in ascending order of start instant. *)
Theorem sorted_steps_are_the_steps (s : Session) :
  Permutation (sort byStartedAt (Obj.values (steps s))) (Obj.values (steps s))
  /\ StronglySorted (fun a b => startedAt a <= startedAt b)
       (sort byStartedAt (Obj.values (steps s))).
Proof. split; [apply sort_perm | apply sort_sorted]. Qed.

Lemma sorted_perm_unique (l l' : list StepRecord) :
  StronglySorted startOrder l -> StronglySorted startOrder l' ->
  NoDup (map startedAt l) -> Permutation l l' -> l = l'.
Proof.
  revert l'. induction l as [|x l IH]; intros l' Hs Hs' Hnd Hp.
  - now apply Permutation_nil in Hp.
  - destruct l' as [|y l']; [now apply Permutation_sym, Permutation_nil in Hp|].
    inversion Hs as [|? ? Hsl Hx]; inversion Hs' as [|? ? Hsl' Hy]; subst.
    inversion Hnd as [|? ? Hnin Hnd']; subst.
    rewrite Forall_forall in Hx, Hy.
    assert (Exy : x = y).
    { assert (Hxin : In x (y :: l')) by (eapply Permutation_in; [exact Hp | now left]).
      assert (Hyin : In y (x :: l))
        by (eapply Permutation_in; [symmetry; exact Hp | now left]).
      destruct Hxin as [->|Hxin]; [reflexivity|].
      destruct Hyin as [->|Hyin]; [reflexivity|].
      exfalso. apply Hnin.
      pose proof (Hx y Hyin) as H1. pose proof (Hy x Hxin) as H2.
      unfold startOrder in *.
      replace (startedAt x) with (startedAt y) by lia. now apply in_map. }
    subst y. f_equal. apply IH; auto. now apply Permutation_cons_inv in Hp.
Qed.

(** X11.  When no two recorded steps started at the same instant, the
    document does not depend on the order in which the records were stored:
    two sessions holding the same records render the same text. *)
Theorem render_ignores_insertion_order (config : Config) (s s' : Session) :
  Permutation (Obj.values (steps s)) (Obj.values (steps s')) ->
  NoDup (map startedAt (Obj.values (steps s))) ->
  render config s = render config s'.
Proof.
  intros Hp Hnd. rewrite !render_header_body. do 2 f_equal.
  apply sorted_perm_unique; try apply sort_sorted.
  - eapply Permutation_NoDup; [|exact Hnd].
    apply Permutation_map. symmetry. apply sort_perm.
  - rewrite sort_perm, Hp. symmetry. apply sort_perm.
Qed.

Lemma render_ignores_insertion_order_witness :
  Permutation (Obj.values (steps three_steps_final))
    (Obj.values (steps three_steps_reversed))
  /\ NoDup (map startedAt (Obj.values (steps three_steps_final)))
  /\ render (mkConfig None) three_steps_final
     = render (mkConfig None) three_steps_reversed.
Proof.
  assert (Hp : Permutation (Obj.values (steps three_steps_final))
                 (Obj.values (steps three_steps_reversed))).
  { change (Permutation [record_a; record_b; record_c] [record_c; record_b; record_a]).
    apply (Permutation_rev [record_a; record_b; record_c]). }
  assert (Hnd : NoDup (map startedAt (Obj.values (steps three_steps_final)))).
  { simpl. repeat constructor; simpl; intuition discriminate. }
  split; [exact Hp|]. split; [exact Hnd|].
  exact (render_ignores_insertion_order (mkConfig None) _ _ Hp Hnd).
Defined.

(** X12.  A finished step gets as its cue number its position in the sorted
    list of all recorded steps, counted from one, whether or not the steps
    before it finished. *)
Theorem cue_number_in_document (config : Config) (s : Session)
    (l1 l2 : list StepRecord) (r : StepRecord) (e : string) :
  sort byStartedAt (Obj.values (steps s)) = (l1 ++ r :: l2)%list ->
  end_ r = Some e -> e <> "" ->
  render config s
  = (header config ++ body (msIdentifier config) l1 0)
      ++ (toString (Num (Z.of_nat (List.length l1) + 1)) ++ LF
            ++ replace "#" (msIdentifier config) (start r) ++ " --> "
            ++ replace "#" (msIdentifier config) e ++ LF
            ++ title r ++ LF ++ LF)
      ++ body (msIdentifier config) l2 (S (List.length l1)).
Proof.
  intros E He Hne. rewrite render_header_body, E, body_app. cbn [Nat.add].
  rewrite (body_finished _ r e l2 _ He Hne), append_assoc. reflexivity.
Qed.

Lemma cue_number_in_document_witness :
  sort byStartedAt (Obj.values (steps three_steps_final))
  = ([record_a; record_b] ++ record_c :: [])%list
  /\ end_ record_c = Some "00:00:00#500"
  /\ "00:00:00#500" <> ""
  /\ render (mkConfig None) three_steps_final
     = (header (mkConfig None) ++ body "," [record_a; record_b] 0)
         ++ ("3" ++ LF ++ "00:00:00,003 --> 00:00:00,500" ++ LF ++ "I.see(x,y)" ++ LF ++ LF)
         ++ "".
Proof.
  assert (E : sort byStartedAt (Obj.values (steps three_steps_final))
              = ([record_a; record_b] ++ record_c :: [])%list) by reflexivity.
  assert (He : end_ record_c = Some "00:00:00#500") by reflexivity.
  assert (Hne : "00:00:00#500" <> "") by discriminate.
  split; [exact E|]. split; [exact He|]. split; [exact Hne|].
  exact (cue_number_in_document (mkConfig None) three_steps_final
           [record_a; record_b] [] record_c "00:00:00#500" E He Hne).
Defined.

(** ** Sessions of runs *)

Lemma get_none_keys {V : Type} (k : string) (o : Obj.t V) :
  Obj.get k o = None -> ~ In k (Obj.keys o).
Proof.
  induction o as [|[k' v'] o IH]; simpl; [tauto|].
  destruct (String.eqb_spec k' k) as [->|Hne]; [discriminate|].
  intros H [E|Hin]; [congruence | exact (IH H Hin)].
Qed.

Lemma keys_set_NoDup {V : Type} (k : string) (v : V) (o : Obj.t V) :
  NoDup (Obj.keys o) -> NoDup (Obj.keys (Obj.set k v o)).
Proof.
  intros Hnd. destruct (Obj.get k o) as [v0|] eqn:Hk.
  - now rewrite (keys_set_present k v v0 o Hk).
  - rewrite (set_absent k v o Hk). unfold Obj.keys. rewrite map_app. simpl.
    apply NoDup_app; [exact Hnd | repeat constructor; simpl; tauto|].
    intros x Hx [<-|[]]. exact (get_none_keys k o Hk Hx).
Qed.

(** X13.  Every run from the initial session ends normally, in a session
    where no identifier is stored twice. *)
Theorem run_keys_unique (evs : list Event) :
  exists s, run evs initial = Normal s /\ NoDup (Obj.keys (steps s)).
Proof.
  assert (G : forall evs s0, NoDup (Obj.keys (steps s0)) ->
             exists s, run evs s0 = Normal s /\ NoDup (Obj.keys (steps s))).
  { clear. induction evs as [|ev evs IH]; intros s0 H0; simpl; [eauto|].
    destruct ev as [now|now uuid step|now step]; simpl.
    - apply IH. constructor.
    - apply IH. simpl. now apply keys_set_NoDup.
    - rewrite stepFinished_cases. simpl. apply IH.
      destruct step as [st|]; [|exact H0]. destruct (id st) as [k|]; [|exact H0].
      destruct (k =? "")%string; [exact H0|].
      destruct (Obj.get k (steps s0)); [|exact H0]. simpl. now apply keys_set_NoDup. }
  apply G. constructor.
Qed.

Lemma formatTimestamp_nonempty n : formatTimestamp n <> "".
Proof.
  rewrite formatTimestamp_parts. intros H.
  apply (f_equal String.length) in H. rewrite length_append in H. simpl in H. lia.
Qed.

(** Each handler does to the session, in any realm, what it does to it in
    the pristine one. *)
Lemma handleIn_session ev s realm :
  exists s' realm', handleIn ev (s, realm) = Normal (s', realm') /\ handle ev s = Normal s'.
Proof.
  destruct ev as [now|now uuid step|now step]; cbn [handleIn handle fst snd].
  - eexists _, _. split; reflexivity.
  - eexists _, _. split; reflexivity.
  - destruct (stepFinishedIn_session realm now step s) as [realm' E].
    rewrite E, stepFinished_cases. eexists _, _. split; reflexivity.
Qed.

Lemma runIn_session evs s realm :
  exists s' realm', runIn evs (s, realm) = Normal (s', realm') /\ run evs s = Normal s'.
Proof.
  revert s realm. induction evs as [|ev evs IH]; intros s realm; cbn [runIn run].
  - eexists _, _. split; reflexivity.
  - destruct (handleIn_session ev s realm) as (s1 & realm1 & -> & ->). cbn [bind].
    apply IH.
Qed.

(** Only a finish event whose payload has the identifier __proto__ gives
    [Object.prototype] an end. *)
Lemma stepFinishedIn_prototypeEnd realm now step s s' realm' :
  (forall st, step = Some st -> id st <> Some "__proto__") ->
  stepFinishedIn realm now step s = Normal (s', realm') ->
  prototypeEnd realm' = prototypeEnd realm.
Proof.
  intros Hid. rewrite stepFinishedIn_cases.
  destruct step as [st|]; [|now intros [= _ <-]].
  specialize (Hid st eq_refl).
  destruct (id st) as [k|]; [|now intros [= _ <-]].
  destruct (k =? "")%string; [now intros [= _ <-]|].
  unfold lookup. destruct (Obj.get k (steps s)) as [r|]; [now intros [= _ <-]|].
  destruct (String.eqb_spec k "__proto__") as [->|]; [congruence|].
  destruct (existsb (String.eqb k) prototypeMethods); [now intros [= _ <-]|].
  destruct (k =? "end")%string; [|now intros [= _ <-]].
  destruct (prototypeEnd realm) as [e|] eqn:Hp; [|now intros [= _ <-]].
  cbn [option_map truthyFound truthy assignEnd].
  destruct (negb (e =? "")%string); now intros [= _ <-].
Qed.

(** X14.  Every run in which no finish event carries the identifier
    __proto__, from the initial session in the pristine realm, ends normally
    with [Object.prototype] still without an end, and with every end offset
    that is set other than the empty string: the test [if (step.end)] of the
    emitter then leaves out exactly the steps that have not finished. *)
Theorem run_ends_truthy (evs : list Event) :
  (forall now st, In (StepFinished now (Some st)) evs -> id st <> Some "__proto__") ->
  exists s realm,
    runIn evs (initial, pristine) = Normal (s, realm)
    /\ prototypeEnd realm = None
    /\ forall r, In r (Obj.values (steps s)) -> truthy (endOf realm r) = isSome (end_ r).
Proof.
  intros Hno.
  assert (G : forall evs s realm,
             (forall now st, In (StepFinished now (Some st)) evs ->
                             id st <> Some "__proto__") ->
             prototypeEnd realm = None ->
             exists s' realm',
               runIn evs (s, realm) = Normal (s', realm')
               /\ run evs s = Normal s' /\ prototypeEnd realm' = None).
  { clear. induction evs as [|ev evs IH]; intros s realm Hno Hp; cbn [runIn run].
    - eexists _, _. repeat split; auto.
    - destruct (handleIn_session ev s realm) as (s1 & realm1 & E & E').
      rewrite E, E'. cbn [bind].
      apply IH; [intros now st Hin; apply (Hno now st); now right|].
      destruct ev as [now|now uuid step|now step]; cbn [handleIn fst snd] in E.
      + now injection E as _ <-.
      + now injection E as _ <-.
      + rewrite <- Hp. eapply stepFinishedIn_prototypeEnd; [|exact E].
        intros st ->. apply (Hno now st). now left. }
  destruct (G evs initial pristine Hno eq_refl) as (s & realm & E & Hs & Hp).
  exists s, realm. split; [exact E|]. split; [exact Hp|].
  intros r Hr. unfold endOf. rewrite Hp.
  assert (Hst : Forall stamped (Obj.values (steps s)))
    by (eapply run_stamped; [|exact Hs]; constructor).
  rewrite Forall_forall in Hst. destruct (Hst r Hr) as [_ He].
  destruct (end_ r) as [e|]; [|reflexivity]. destruct (He e eq_refl) as [b ->].
  simpl. apply negb_true_iff, String.eqb_neq, formatTimestamp_nonempty.
Qed.

Lemma run_ends_truthy_witness :
  (forall now st, In (StepFinished now (Some st)) three_steps -> id st <> Some "__proto__")
  /\ exists s realm,
       runIn three_steps (initial, pristine) = Normal (s, realm)
       /\ prototypeEnd realm = None.
Proof.
  assert (H : forall now st, In (StepFinished now (Some st)) three_steps ->
                             id st <> Some "__proto__").
  { intros now st Hin. simpl in Hin.
    repeat (destruct Hin as [Hin|Hin]; [try discriminate; injection Hin as _ <-; discriminate|]).
    contradiction. }
  split; [exact H|].
  destruct (run_ends_truthy three_steps H) as (s & realm & E & Hp & _).
  exists s, realm. split; [exact E | exact Hp].
Defined.

(** ** Test end, continued *)

Section EmitterMore.

Variable path_parse : string -> ParsedPath.

Lemma testAfter_cases config test s fs :
  (truthy (video_of test) = false
   /\ testAfter path_parse config test s fs = Normal (fs, test))
  \/ (exists a video,
        test = Some (mkTest (Some a)) /\ Obj.get "video" a = Some video /\ video <> ""
        /\ testAfter path_parse config test s fs
           = (fs' <- writeFile (outputPath path_parse config video) (render config s) fs ;;
              Normal (fs', Some (mkTest (Some (Obj.set "subtitle"
                                                 (outputPath path_parse config video) a)))))).
Proof.
  destruct (truthy (video_of test)) eqn:Ht.
  - right. destruct (video_of test) as [video|] eqn:Hv; [|discriminate].
    destruct (video_of_some _ _ Hv) as (a & -> & Ha).
    assert (Hne : video <> "")
      by (simpl in Ht; now apply String.eqb_neq, negb_true_iff).
    exists a, video. repeat split; auto. now apply testAfter_video.
  - left. split; [reflexivity | now apply testAfter_no_video].
Qed.

(** X15.  Test end never throws on account of a missing test, artifact map
    or video entry: when it throws, the test has a video entry and the host
    rejected the write at the path derived from it. *)
Theorem testAfter_throws_only_on_write (config : Config) (test : option Test)
    (s : Session) (fs : FileSystem) (e : Error) :
  testAfter path_parse config test s fs = Throw e ->
  e = WriteError
  /\ exists video,
       video_of test = Some video /\ video <> ""
       /\ In (outputPath path_parse config video) (rejected fs).
Proof.
  destruct (testAfter_cases config test s fs) as [[_ ->]|(a & video & -> & Ha & Hne & ->)];
    [discriminate|].
  unfold writeFile.
  destruct (existsb (String.eqb (outputPath path_parse config video)) (rejected fs)) eqn:E;
    [|discriminate].
  intros [= <-]. split; [reflexivity|]. exists video. repeat split; auto.
  apply existsb_exists in E as (p & Hp & Heq). apply String.eqb_eq in Heq. now subst.
Qed.

(** X16.  Handling the same test end a second time changes nothing more: the
    same document is written over itself and the same path is stored again. *)
Theorem testAfter_twice (config : Config) (test test' : option Test)
    (s : Session) (fs fs' : FileSystem) :
  testAfter path_parse config test s fs = Normal (fs', test') ->
  testAfter path_parse config test' s fs' = Normal (fs', test').
Proof.
  destruct (testAfter_cases config test s fs) as [[Ht ->]|(a & video & -> & Ha & Hne & ->)].
  - intros [= <- <-]. now apply testAfter_no_video.
  - unfold writeFile at 1.
    destruct (existsb (String.eqb (outputPath path_parse config video)) (rejected fs)) eqn:E;
      [discriminate|].
    intros [= <- <-].
    rewrite (testAfter_video path_parse config _ video)
      by (try exact Hne; rewrite get_set_neq by discriminate; exact Ha).
    unfold writeFile. cbn [rejected files]. rewrite E. cbn [bind].
    now rewrite !set_set.
Qed.

End EmitterMore.

Lemma testAfter_throws_only_on_write_witness :
  testAfter SimplePath.parse (mkConfig None) video_test three_steps_final readonly_fs
  = Throw WriteError
  /\ In (outputPath SimplePath.parse (mkConfig None) "/a/b/test.mp4")
       (rejected readonly_fs).
Proof.
  assert (H : testAfter SimplePath.parse (mkConfig None) video_test three_steps_final
                readonly_fs = Throw WriteError) by reflexivity.
  split; [exact H|].
  destruct (testAfter_throws_only_on_write SimplePath.parse _ _ _ _ _ H)
    as (_ & video & Hv & _ & Hin).
  injection Hv as <-. exact Hin.
Defined.

Lemma testAfter_twice_witness :
  exists fs' test',
    testAfter SimplePath.parse (mkConfig None) video_test three_steps_final empty_fs
    = Normal (fs', test')
    /\ testAfter SimplePath.parse (mkConfig None) test' three_steps_final fs'
       = Normal (fs', test').
Proof.
  eexists _, _.
  assert (H : testAfter SimplePath.parse (mkConfig None) video_test three_steps_final
                empty_fs
              = Normal (mkFileSystem
                          [("/a/b/test.srt", render (mkConfig None) three_steps_final)] [],
                        Some (mkTest (Some [("video", "/a/b/test.mp4");
                                            ("subtitle", "/a/b/test.srt")]))))
    by reflexivity.
  split; [exact H|].
  exact (testAfter_twice SimplePath.parse _ _ _ _ _ _ H).
Defined.

(** ** From the events to the document *)

(** X17.  One test with one step, from any earlier session: after test start
    at [t0], step start at [t1] and the finish of that step at [t2], the
    document is the header (if any) and a single cue, numbered 1, from the
    offset [t1 - t0] to the offset [t2 - t0], with the title of the step. *)
Theorem single_step_document (config : Config) (t0 t1 t2 : Z) (uuid : string)
    (step : Step) (s0 : Session) :
  uuid <> "" ->
  let sep := msIdentifier config in
  exists s,
    run [TestBefore t0;
         StepStarted t1 uuid step;
         StepFinished t2 (Some (snd (stepStarted t1 uuid step (testBefore t0 s0))))] s0
    = Normal s
    /\ render config s
       = header config
           ++ "1" ++ LF
           ++ (clock (Num (t1 - t0)) ++ sep ++ millis (Num (t1 - t0))) ++ " --> "
           ++ (clock (Num (t2 - t0)) ++ sep ++ millis (Num (t2 - t0))) ++ LF
           ++ stepTitle step ++ LF ++ LF.
Proof.
  intros Hne sep. cbn [run handle bind]. rewrite stepFinished_cases. cbn [bind].
  eexists. split; [reflexivity|].
  cbn [stepStarted testBefore fst snd id steps testStartedAt].
  apply String.eqb_neq in Hne. rewrite Hne, get_set_eq.
  cbn [steps testStartedAt]. rewrite set_set, render_header_body.
  cbn [steps Obj.set Obj.empty Obj.values map snd sort insert].
  erewrite body_finished; [|reflexivity | apply formatTimestamp_nonempty].
  fold sep. unfold cue. cbn [start title setEnd body]. unfold elapsed.
  cbn [testStartedAt toNumber jsub jsnum_lift2].
  rewrite !replace_formatTimestamp, append_nil_r, !append_assoc. reflexivity.
Qed.

Lemma single_step_document_witness :
  "id-a" <> ""
  /\ exists s,
       run [TestBefore 1000;
            StepStarted 1001 "id-a" (plainStep "I" "amOnPage" None);
            StepFinished 3500 (Some (plainStep "I" "amOnPage" (Some "id-a")))]
         three_steps_final
       = Normal s
       /\ render (mkConfig (Some "WEBVTT")) s
          = "WEBVTT" ++ LF ++ LF ++ "1" ++ LF ++ "00:00:00.001 --> 00:00:02.500" ++ LF
              ++ "I.amOnPage(x,y)" ++ LF ++ LF.
Proof.
  assert (H : "id-a" <> "") by discriminate.
  split; [exact H|].
  destruct (single_step_document (mkConfig (Some "WEBVTT")) 1000 1001 3500 "id-a"
              (plainStep "I" "amOnPage" None) three_steps_final H) as (s & E & R).
  exists s. split; [exact E|]. rewrite R. vm_compute. reflexivity.
Defined.
